(** * CASA: the page-skip middleware and config ingestion

    A shallow embedding of [middleware/page/skip.js] and of [ingestConfig]
    from [casa.js], with the properties their specification states.

    Conventions of the model:
    - a JavaScript string is a [string], one [ascii] per code unit (code
      units above 255 are outside the model; none of them is matched by the
      waypoint pattern, with or without the [i] flag);
    - a JavaScript value is a [JSValue] tree; objects keep their properties
      in enumeration order;
    - Express' [res], [next], the logger and [session.save] are external
      collaborators: calls on them are recorded, in order, in a trace. *)

From Stdlib Require Import ZArith Ascii DecimalString.
From stdpp Require Import gmap strings list fin_maps.

Local Open Scope Z_scope.
Set Warnings "-register-all".

(** ** JavaScript values *)

(** Plain data: numbers are the integers, objects have no [toJSON] and
    no getters, and a function is known by its name only. A value of
    JavaScript need not be a tree: [JCircular] stands, inside an object
    or an array, for a reference to an object or array that holds it. *)
Inductive JSValue : Type :=
  | JUndefined
  | JNull
  | JBool (b : bool)
  | JNumber (n : Z)
  | JString (s : string)
  | JArray (elems : list JSValue)
  | JObject (props : list (string * JSValue))
  | JFunction (name : string)
  | JBigInt (n : Z)
  | JCircular.

(** [v === undefined] *)
Definition is_undefined (v : JSValue) : bool :=
  match v with JUndefined => true | _ => false end.

(** [typeof v === 'string'] *)
Definition typeof_string (v : JSValue) : bool :=
  match v with JString _ => true | _ => false end.

(** ToBoolean, as used by [if (err)] and [x || y]. *)
Definition truthy (v : JSValue) : bool :=
  match v with
  | JUndefined | JNull => false
  | JBool b => b
  | JNumber n => negb (n =? 0)
  | JString s => negb (String.eqb s "")
  | JArray _ | JObject _ | JFunction _ => true
  | JBigInt n => negb (n =? 0)
  | JCircular => true
  end.

(** ** Characters and the waypoint pattern *)

Module Char.

Definition code (c : ascii) : N := N_of_ascii c.

Definition between (lo hi c : ascii) : bool :=
  ((code lo <=? code c) && (code c <=? code hi))%N.

Definition is_lower (c : ascii) : bool := between "a" "z" c.
Definition is_upper (c : ascii) : bool := between "A" "Z" c.
Definition is_digit (c : ascii) : bool := between "0" "9" c.
Definition is_slash (c : ascii) : bool := Ascii.eqb c "/".

(** An ASCII capital becomes its small letter; every other character is
    kept (the [i] flag without [u] never folds a character outside ASCII
    onto an ASCII one). *)
Definition to_lower (c : ascii) : ascii :=
  if is_upper c then ascii_of_N (code c + 32) else c.

(** The character class [[a-z0-9-]]. *)
Definition in_waypoint_class (c : ascii) : bool :=
  is_lower c || is_digit c || Ascii.eqb c "-".

(** The character class [[a-zA-Z0-9-]]. *)
Definition in_any_case_class (c : ascii) : bool :=
  is_lower c || is_upper c || is_digit c || Ascii.eqb c "-".

End Char.

Fixpoint string_forallb (p : ascii -> bool) (s : string) : bool :=
  match s with
  | EmptyString => true
  | String c s' => p c && string_forallb p s'
  end.

(** [s.match(/^[a-z0-9-]{1,200}$/)], with the [i] flag when [ignoreCase]:
    the whole string (without the [m] flag, [$] is the end of the input)
    is between 1 and 200 characters of the class. *)
Definition match_waypoint_re (ignoreCase : bool) (s : string) : bool :=
  let class c :=
    Char.in_waypoint_class (if ignoreCase then Char.to_lower c else c) in
  (1 <=? String.length s)%nat && (String.length s <=? 200)%nat
  && string_forallb class s.

Fixpoint string_repeat (c : ascii) (n : nat) : string :=
  match n with
  | O => EmptyString
  | S n' => String c (string_repeat c n')
  end.

(** The pattern of the specification, [^[a-z0-9-]{1,200}$]. *)
Definition waypoint_id_pattern (s : string) : bool := match_waypoint_re false s.

(** The pattern of [skip.js], [/^[a-z0-9-]{1,200}$/i]. *)
Definition skipto_pattern (s : string) : bool := match_waypoint_re true s.

(** [v] is a string that matches [pattern]. *)
Definition string_matching (pattern : string -> bool) (v : JSValue) : bool :=
  match v with JString s => pattern s | _ => false end.

(** ** [String.prototype.replace(/\/+/g, '/')] *)

(** Left to right; [in_run] says that the previous character was a slash,
    that is, that the current match of [\/+] is still being extended. *)
Fixpoint replace_slash_runs (in_run : bool) (s : string) : string :=
  match s with
  | EmptyString => EmptyString
  | String c s' =>
      if Char.is_slash c
      then (if in_run then replace_slash_runs true s'
            else String "/" (replace_slash_runs true s'))
      else String c (replace_slash_runs false s')
  end.

Definition collapse_slashes (s : string) : string := replace_slash_runs false s.

(** The string starts with a slash. *)
Definition head_is_slash (s : string) : bool :=
  match s with String c _ => Char.is_slash c | EmptyString => false end.

(** No two adjacent slashes. *)
Fixpoint no_slash_run (s : string) : bool :=
  match s with
  | EmptyString => true
  | String c s' =>
      match s' with
      | String d _ => negb (Char.is_slash c && Char.is_slash d)
      | EmptyString => true
      end && no_slash_run s'
  end.

Fixpoint drop_slashes (s : string) : string :=
  match s with
  | EmptyString => EmptyString
  | String c s' =>
      if Char.is_slash c then drop_slashes s' else String c (drop_slashes s')
  end.

(** ** The request world and its effects *)

(** The interface of [req.journeyData] that the middleware calls. The
    class behind it, [lib/JourneyContext.js], is a collaborator of the
    middleware; [D] and [E] are what [getData] and [getValidationErrors]
    hand out. *)
Class JourneyContextOps (JC D E : Type) := {
  clearValidationErrorsForPage : string -> JC -> JC;
  setDataForPage : string -> JSValue -> JC -> JC;
  getData : JC -> D;
  getValidationErrors : JC -> E;
}.

Section World.

Context {JC D E : Type}.

(** [req.journeyOrigin]; [originId] may be missing. *)
Record JourneyOrigin := { originId : option string }.

(** [req.session]: the two properties the middleware assigns ([None]
    while never assigned) and everything else kept in the session. *)
Record Session := {
  sess_journeyData : option D;
  sess_journeyValidationErrors : option E;
  sess_rest : gmap string JSValue;
}.

Record Request := {
  query : gmap string JSValue;
  journeyOrigin : option JourneyOrigin;
  journeyWaypointId : string;
  journeyData : JC;
  session : Session;
}.

(** Calls on the external collaborators, in the order they are made. *)
Inductive Event :=
  | NextCalled
  | LogInfo (fmt : string) (args : list JSValue)
  | LogError (err : JSValue)
  | ResStatus (code : Z)
  | ResSend (body : string)
  | ResRedirect (url : string)
  | SessionSave (snapshot : Session).

(** [saveResult] is what the session store will pass to the callback
    of [session.save]: a falsy value on success, the error otherwise. *)
Record World := {
  req : Request;
  trace : list Event;
  saveResult : JSValue;
}.

Definition M (A : Type) : Type := World -> A * World.

Definition ret {A} (a : A) : M A := fun w => (a, w).
Definition bind {A B} (m : M A) (k : A -> M B) : M B :=
  fun w => let (a, w') := m w in k a w'.
Definition exec {A} (m : M A) (w : World) : World := snd (m w).

Definition get_req : M Request := fun w => (req w, w).
Definition put_req (r : Request) : M unit :=
  fun w => (tt, {| req := r; trace := trace w; saveResult := saveResult w |}).
Definition emit (e : Event) : M unit :=
  fun w => (tt, {| req := req w; trace := trace w ++ [e];
                   saveResult := saveResult w |}).

Definition set_journeyData (jc : JC) (r : Request) : Request :=
  {| query := query r; journeyOrigin := journeyOrigin r;
     journeyWaypointId := journeyWaypointId r;
     journeyData := jc; session := session r |}.

Definition set_session (s : Session) (r : Request) : Request :=
  {| query := query r; journeyOrigin := journeyOrigin r;
     journeyWaypointId := journeyWaypointId r;
     journeyData := journeyData r; session := s |}.

(** [req.session.save(cb)]: the call is recorded with the session as it
    is at that moment, and the callback is run, once, with [saveResult]. *)
Definition session_save : M JSValue :=
  fun w => (saveResult w,
            {| req := req w;
               trace := trace w ++ [SessionSave (session (req w))];
               saveResult := saveResult w |}).

End World.

Arguments JourneyOrigin : clear implicits.
Arguments Session : clear implicits.
Arguments Request : clear implicits.
Arguments Event : clear implicits.
Arguments World : clear implicits.
Arguments M : clear implicits.

Declare Scope js_scope.
Delimit Scope js_scope with js.
Notation "x <- m ;; k" := (bind m (fun x => k))
  (at level 100, m at next level, right associativity) : js_scope.
Notation "m ;; k" := (bind m (fun _ => k))
  (at level 100, right associativity) : js_scope.

(** ** [middleware/page/skip.js] *)

Section SkipMiddleware.

Context {JC D E : Type} `{!JourneyContextOps JC D E}.

Local Open Scope js_scope.

(** The data written to a skipped waypoint, [{ __skipped__: true }]. *)
Definition skip_marker : JSValue := JObject [("__skipped__", JBool true)].

(** The default of [const { journeyOrigin = { originId: '' } } = req]. *)
Definition default_journeyOrigin : JourneyOrigin := {| originId := Some "" |}.

(** [journeyOrigin.originId || ''] *)
Definition origin_segment (journeyOrigin : JourneyOrigin) : string :=
  match originId journeyOrigin with
  | Some s => if truthy (JString s) then s else ""
  | None => ""
  end.

(** The template literal of the redirect and its
    [.replace(/\/+/g, '/')]. *)
Definition redirect_target (mountUrl : string)
    (journeyOrigin : JourneyOrigin) (skipto : string) : string :=
  collapse_slashes
    (mountUrl +:+ "/" +:+ origin_segment journeyOrigin +:+ "/" +:+ skipto).

(** [typeof skipto !== 'string' || !skipto.match(/^[a-z0-9-]{1,200}$/i)] *)
Definition invalid_skipto (skipto : JSValue) : bool :=
  negb (typeof_string skipto) || negb (string_matching skipto_pattern skipto).

(** [`${skipto}`] for the string that passed the validation. *)
Definition skipto_text (skipto : JSValue) : string :=
  match skipto with JString s => s | _ => "" end.

Definition skip (mountUrl : string) : M JC D E unit :=
  r <- get_req ;;
  let skipto := default JUndefined (query r !! "skipto") in
  let journeyOrigin := default default_journeyOrigin (journeyOrigin r) in
  (* Validate arguments *)
  if is_undefined skipto then
    emit NextCalled
  else if invalid_skipto skipto then
    emit (ResStatus 400) ;; emit (ResSend "Invalid waypoint")
  else
    (* Inject the marker into the waypoint's page data *)
    emit (LogInfo "Marking waypoint %s as skipped"
                  [JString (journeyWaypointId r)]) ;;
    r <- get_req ;;
    put_req (set_journeyData
               (clearValidationErrorsForPage (journeyWaypointId r)
                  (journeyData r)) r) ;;
    r <- get_req ;;
    put_req (set_journeyData
               (setDataForPage (journeyWaypointId r) skip_marker
                  (journeyData r)) r) ;;
    (* Persist changes to session *)
    r <- get_req ;;
    put_req (set_session
               {| sess_journeyData := Some (getData (journeyData r));
                  sess_journeyValidationErrors :=
                    sess_journeyValidationErrors (session r);
                  sess_rest := sess_rest (session r) |} r) ;;
    r <- get_req ;;
    put_req (set_session
               {| sess_journeyData := sess_journeyData (session r);
                  sess_journeyValidationErrors :=
                    Some (getValidationErrors (journeyData r));
                  sess_rest := sess_rest (session r) |} r) ;;
    (* Save session and send user on their way *)
    err <- session_save ;;
    (if truthy err then emit (LogError err) else ret tt) ;;
    emit (ResStatus 302) ;;
    emit (ResRedirect
            (redirect_target mountUrl journeyOrigin (skipto_text skipto))).

End SkipMiddleware.

(** ** The journey context *)

Module JourneyContext.

(** Modelled from the spec: [lib/JourneyContext.js] is not among the
    sources. Its data model is section 3 of the specification ([data]
    maps a waypoint id to the payload submitted for it,
    [validationErrors] maps a waypoint id to an ordered list of
    field-level errors) and its operations are the contract of
    section 4.2. *)
Record t := {
  data : gmap string JSValue;
  validation : gmap string (list JSValue);
}.

(** Modelled from the spec: the context as created at journey start,
    empty. *)
Definition empty : t := {| data := ∅; validation := ∅ |}.

(** Reading one property of a payload. *)
Fixpoint props_lookup (k : string) (ps : list (string * JSValue))
    : option JSValue :=
  match ps with
  | [] => None
  | (k', v) :: ps' => if String.eqb k k' then Some v else props_lookup k ps'
  end.

(** Assignment of one property: in place when the key exists, appended
    otherwise. *)
Fixpoint props_set (k : string) (v : JSValue) (ps : list (string * JSValue))
    : list (string * JSValue) :=
  match ps with
  | [] => [(k, v)]
  | (k', v') :: ps' =>
      if String.eqb k k' then (k, v) :: ps' else (k', v') :: props_set k v ps'
  end.

(** Modelled from the spec: a payload carries the skip marker when its
    reserved key [__skipped__] is [true]. *)
Definition carries_skip_marker (payload : JSValue) : bool :=
  match payload with
  | JObject ps =>
      match props_lookup "__skipped__" ps with
      | Some (JBool true) => true
      | _ => false
      end
  | _ => false
  end.

(** Modelled from the spec: the top-level merge of a payload into what
    is stored; a stored value that is no object is replaced. *)
Definition merge_payload (stored : option JSValue) (payload : JSValue)
    : JSValue :=
  match stored, payload with
  | Some (JObject old), JObject new =>
      JObject (foldl (fun acc kv => props_set kv.1 kv.2 acc) old new)
  | _, _ => payload
  end.

(** Modelled from the spec: [setDataForWaypoint(id, payload)] is a total
    replace, not a merge, when the payload carries the skip marker, and
    a partial replace (merge at top level) otherwise. *)
Definition setDataForWaypoint (id : string) (payload : JSValue) (c : t) : t :=
  {| data :=
       if carries_skip_marker payload
       then <[id := payload]> (data c)
       else <[id := merge_payload (data c !! id) payload]> (data c);
     validation := validation c |}.

(** Modelled from the spec: [getDataForWaypoint(id)], payload or empty. *)
Definition getDataForWaypoint (id : string) (c : t) : JSValue :=
  default (JObject []) (data c !! id).

(** Modelled from the spec: [setValidationErrors(id, errors)]. *)
Definition setValidationErrors (id : string) (errors : list JSValue) (c : t)
    : t :=
  {| data := data c; validation := <[id := errors]> (validation c) |}.

(** Modelled from the spec: [clearValidationErrors(id)]. *)
Definition clearValidationErrors (id : string) (c : t) : t :=
  {| data := data c; validation := delete id (validation c) |}.

(** Modelled from the spec: the ordered list of errors held for a
    waypoint (section 3), empty when the waypoint has no entry. *)
Definition getValidationErrorsForWaypoint (id : string) (c : t)
    : list JSValue :=
  default [] (validation c !! id).

(** Modelled from the spec: [isSkipped(id)] is true iff the stored
    payload equals the skip marker exactly. *)
Definition isSkipped (id : string) (c : t) : bool :=
  match data c !! id with
  | Some (JObject [(k, JBool true)]) => String.eqb k "__skipped__"
  | _ => false
  end.

End JourneyContext.

(** Modelled from the spec: the methods [skip.js] calls on
    [req.journeyData] are the operations of the contract of section 4.2,
    under the names the code uses for them; [getData] and
    [getValidationErrors] hand out the two mappings of section 3. *)
#[export] Instance journey_context_ops :
    JourneyContextOps JourneyContext.t
      (gmap string JSValue) (gmap string (list JSValue)) := {
  clearValidationErrorsForPage := JourneyContext.clearValidationErrors;
  setDataForPage := JourneyContext.setDataForWaypoint;
  getData := JourneyContext.data;
  getValidationErrors := JourneyContext.validation;
}.

Abbreviation CasaRequest :=
  (Request JourneyContext.t (gmap string JSValue) (gmap string (list JSValue))).
Abbreviation CasaWorld :=
  (World JourneyContext.t (gmap string JSValue) (gmap string (list JSValue))).

(** The scenario of the specification: [/step-two?skipto=step-four] with
    origin [main], after a failed submission of [step-two]. *)
Definition scenario_context : JourneyContext.t :=
  {| JourneyContext.data :=
       {[ "step-one" := JObject [("name", JString "Ada")];
          "step-two" := JObject [("age", JString "x")] ]};
     JourneyContext.validation :=
       {[ "step-two" := [JObject [("field", JString "age")]] ]} |}.

Definition scenario_request (skipto : option JSValue) : CasaRequest :=
  {| query := match skipto with
              | Some v => {[ "skipto" := v ]}
              | None => ∅
              end;
     journeyOrigin := Some {| originId := Some "main" |};
     journeyWaypointId := "step-two";
     journeyData := scenario_context;
     session := {| sess_journeyData := None;
                   sess_journeyValidationErrors := None;
                   sess_rest := ∅ |} |}.

Definition scenario_world (skipto : option JSValue) (saveResult : JSValue)
    : CasaWorld :=
  {| req := scenario_request skipto; trace := []; saveResult := saveResult |}.

(** ** Vocabulary for the runs of the middleware *)

Section SkipVocabulary.

Context {JC D E : Type} `{!JourneyContextOps JC D E}.

Implicit Types (w : World JC D E) (r : Request JC D E).

(** The value bound by [const { skipto } = req.query]. *)
Definition skipto_of r : JSValue := default JUndefined (query r !! "skipto").

(** The origin bound by [const { journeyOrigin = ... } = req]. *)
Definition origin_of r : JourneyOrigin :=
  default default_journeyOrigin (journeyOrigin r).

(** The world with further calls recorded and nothing else changed. *)
Definition recording w (evs : list (Event D E)) : World JC D E :=
  {| req := req w; trace := trace w ++ evs; saveResult := saveResult w |}.

(** The calls recorded between [w] and [w']. *)
Definition new_events w w' : list (Event D E) :=
  drop (length (trace w)) (trace w').

(** The request once the waypoint is marked and the session assigned. *)
Definition skipped_request r : Request JC D E :=
  let jd := setDataForPage (journeyWaypointId r) skip_marker
              (clearValidationErrorsForPage (journeyWaypointId r)
                 (journeyData r)) in
  {| query := query r; journeyOrigin := journeyOrigin r;
     journeyWaypointId := journeyWaypointId r;
     journeyData := jd;
     session := {| sess_journeyData := Some (getData jd);
                   sess_journeyValidationErrors :=
                     Some (getValidationErrors jd);
                   sess_rest := sess_rest (session r) |} |}.

(** What the callback of [session.save] logs. *)
Definition save_error_log (err : JSValue) : list (Event D E) :=
  if truthy err then [LogError err] else [].

Definition skip_events (mountUrl : string) w : list (Event D E) :=
  LogInfo "Marking waypoint %s as skipped" [JString (journeyWaypointId (req w))]
  :: SessionSave (session (skipped_request (req w)))
  :: save_error_log (saveResult w)
  ++ [ResStatus 302;
      ResRedirect (redirect_target mountUrl (origin_of (req w))
                     (skipto_text (skipto_of (req w))))].

(** The same world with another answer of the session store. *)
Definition with_saveResult w (err : JSValue) : World JC D E :=
  {| req := req w; trace := trace w; saveResult := err |}.

(** The middleware accepts the request's [skipto]. *)
Definition valid_skipto r : bool :=
  string_matching skipto_pattern (skipto_of r).

Definition is_log_event (e : Event D E) : bool :=
  match e with LogInfo _ _ | LogError _ => true | _ => false end.

Definition is_response_event (e : Event D E) : bool :=
  match e with ResStatus _ | ResSend _ | ResRedirect _ => true | _ => false end.

Definition is_save_event (e : Event D E) : bool :=
  match e with SessionSave _ => true | _ => false end.

End SkipVocabulary.

(** ** [JSON.stringify] *)

Module JSON.

Definition dquote : ascii := ascii_of_N 34.
Definition backslash : ascii := ascii_of_N 92.

Definition hex_digit (n : N) : ascii :=
  if (n <? 10)%N then ascii_of_N (48 + n) else ascii_of_N (87 + n).

(** One code unit of QuoteJSONString: the two-character escapes, the
    [\uXXXX] form for the other control characters, the character
    itself otherwise. *)
Definition quote_code_unit (c : ascii) : string :=
  let n := N_of_ascii c in
  if (n =? 8)%N then String backslash "b"
  else if (n =? 9)%N then String backslash "t"
  else if (n =? 10)%N then String backslash "n"
  else if (n =? 12)%N then String backslash "f"
  else if (n =? 13)%N then String backslash "r"
  else if (n =? 34)%N then String backslash (String dquote "")
  else if (n =? 92)%N then String backslash (String backslash "")
  else if (n <? 32)%N then
    String backslash
      ("u00" +:+ String (hex_digit (n / 16)) (String (hex_digit (n mod 16)) ""))
  else String c "".

Fixpoint quote_code_units (s : string) : string :=
  match s with
  | EmptyString => EmptyString
  | String c s' => quote_code_unit c +:+ quote_code_units s'
  end.

Definition QuoteJSONString (s : string) : string :=
  String dquote (quote_code_units s +:+ String dquote "").

(** The decimal digits of an integer. Number::toString gives them for
    the integers below 10^21 that a double holds exactly; it is used in
    the examples only. *)
Definition decimal (n : Z) : string :=
  NilZero.string_of_int (Z.to_int n).

(** ToString of an array index. *)
Definition index_key (i : nat) : string :=
  NilZero.string_of_uint (Nat.to_uint i).

(** What a call of the serialization comes to: an exception thrown, or
    a value returned. *)
Inductive Outcome (A : Type) : Type :=
  | Throws (message : string)
  | Gives (a : A).

Arguments Throws {A} message.
Arguments Gives {A} a.

(** A call that may also nest deeper than the stack allows: [None]. *)
Definition and_then {A B} (m : option (Outcome A))
    (k : A -> option (Outcome B)) : option (Outcome B) :=
  match m with
  | None => None
  | Some (Throws message) => Some (Throws message)
  | Some (Gives a) => k a
  end.

(** The elements of a list, each with its index, in order, up to the
    first one that throws. *)
Fixpoint mapM_indexed {A B} (f : nat -> A -> option (Outcome B))
    (i : nat) (l : list A) : option (Outcome (list B)) :=
  match l with
  | [] => Some (Gives [])
  | x :: l' =>
      and_then (f i x) (fun y =>
      and_then (mapM_indexed f (S i) l') (fun ys =>
      Some (Gives (y :: ys))))
  end.

(** The serialization of a property is [None] for [undefined] (the
    property is left out of an object, and is [null] in an array). *)
Abbreviation Serialized := (option string).

(** A member of an object: the quoted key, a colon and the serialized
    value; no member for [undefined]. *)
Definition member (key : string) (strP : Serialized) : option string :=
  match strP with
  | Some s => Some (QuoteJSONString key +:+ ":" +:+ s)
  | None => None
  end.

Section Serialize.

(** Number::toString. It is floating-point arithmetic (shortest digits
    that read back, exponent form from 10^21) and is taken as it is. *)
Variable Number_toString : Z -> string.

(** SerializeJSONProperty after the value is read from its holder, with
    [recur] for the properties and elements of the value. *)
Definition serialize_property
    (recur : string -> JSValue -> option (Outcome Serialized))
    (replacer : string -> JSValue -> JSValue)
    (key : string) (held : JSValue) : option (Outcome Serialized) :=
  match replacer key held with
  | JNull => Some (Gives (Some "null"))
  | JBool true => Some (Gives (Some "true"))
  | JBool false => Some (Gives (Some "false"))
  | JString s => Some (Gives (Some (QuoteJSONString s)))
  | JNumber n => Some (Gives (Some (Number_toString n)))
  | JBigInt _ => Some (Throws "Do not know how to serialize a BigInt")
  | JCircular => Some (Throws "Converting circular structure to JSON")
  | JObject props =>
      (* SerializeJSONObject *)
      and_then
        (mapM_indexed
           (fun _ (kv : string * JSValue) =>
              and_then (recur kv.1 kv.2) (fun strP =>
              Some (Gives (member kv.1 strP))))
           0%nat props)
        (fun partial =>
           Some (Gives (Some ("{" +:+ String.concat "," (omap id partial)
                                  +:+ "}"))))
  | JArray elems =>
      (* SerializeJSONArray *)
      and_then
        (mapM_indexed
           (fun i v =>
              and_then (recur (index_key i) v) (fun strP =>
              Some (Gives (default "null" strP))))
           0%nat elems)
        (fun partial =>
           Some (Gives (Some ("[" +:+ String.concat "," partial +:+ "]"))))
  | JUndefined | JFunction _ => Some (Gives None)
  end.

(** [fuel] bounds the depth of the calls: a replacer may hand back ever
    larger values, and the JavaScript engine then runs out of stack. *)
Fixpoint SerializeJSONProperty (fuel : nat)
    (replacer : string -> JSValue -> JSValue)
    (key : string) (held : JSValue) : option (Outcome Serialized) :=
  match fuel with
  | O => None
  | S fuel' =>
      serialize_property (SerializeJSONProperty fuel' replacer)
        replacer key held
  end.

(** [JSON.stringify(value, replacer)]: the value is the property of
    the empty key of a wrapper object. *)
Definition stringify (fuel : nat) (replacer : string -> JSValue -> JSValue)
    (value : JSValue) : option (Outcome Serialized) :=
  SerializeJSONProperty fuel replacer "" value.

End Serialize.

End JSON.

(** The nesting depth of a value. *)
Fixpoint height (v : JSValue) : nat :=
  match v with
  | JArray elems => S (foldr (fun e acc => Nat.max (height e) acc) 0%nat elems)
  | JObject props =>
      S (foldr (fun kv acc => Nat.max (height kv.2) acc) 0%nat props)
  | _ => 0%nat
  end.

(** ** [casa.js]: [ingestConfig] *)

(** [list.indexOf(k)]: the index of the first element equal to [k], or -1. *)
Fixpoint indexOf_from (i : Z) (l : list string) (k : string) : Z :=
  match l with
  | [] => -1
  | x :: l' => if String.eqb x k then i else indexOf_from (i + 1) l' k
  end.

Definition indexOf (l : list string) (k : string) : Z := indexOf_from 0 l k.

(** The replacer of [ingestConfig]:
    [(k, v) => (['store', 'secret'].indexOf(k) > -1 ? '[NOT PARSED]' : v)]. *)
Definition config_replacer (k : string) (v : JSValue) : JSValue :=
  if indexOf ["store"; "secret"] k >? -1 then JString "[NOT PARSED]" else v.

(** The keys whose values the replacer withholds. *)
Definition is_secret_key (k : string) : bool :=
  indexOf ["store"; "secret"] k >? -1.

(** Two values differ at most in what they hold under the keys [store]
    and [secret]: same shape, same keys in the same order, same values
    everywhere else. *)
Inductive secret_equiv : JSValue -> JSValue -> Prop :=
  | secret_equiv_same v : secret_equiv v v
  | secret_equiv_array l1 l2 :
      Forall2 secret_equiv l1 l2 -> secret_equiv (JArray l1) (JArray l2)
  | secret_equiv_object p1 p2 :
      Forall2 (fun kv1 kv2 : string * JSValue =>
                 kv1.1 = kv2.1
                 /\ (is_secret_key kv1.1 = true \/ secret_equiv kv1.2 kv2.2))
        p1 p2 ->
      secret_equiv (JObject p1) (JObject p2).

(** A call of [logger.info]: the format and its arguments. *)
Definition LogCall : Type := string * list JSValue.

Inductive Completion :=
  | Returned (validatedConfig : JSValue)
  | Thrown (message : string).

(** What [JSON.stringify] returns, as a value: a string or [undefined]. *)
Definition js_of_serialized (r : option string) : JSValue :=
  match r with Some json => JString json | None => JUndefined end.

(** The calls of [JSON.stringify] nest as deep as the value, once more
    for the wrapper. *)
Definition stringify_depth (v : JSValue) : nat := S (height v).

Section Casa.

(** Number::toString, as [JSON.stringify] uses it. *)
Variable Number_toString : Z -> string.

(** [logger.info] of [lib/Logger.js]: the message of the exception it
    throws, when it throws. *)
Variable logger_info : string -> list JSValue -> option string.

(** [ingest] of [lib/ConfigIngestor.js]: the validated configuration,
    or the message of the exception it throws. *)
Variable ingest : JSValue -> JSValue + string.

(** The result holds the calls of [logger.info] that were made. Whatever
    is thrown in the [try] block is thrown again with its message after
    [CONFIG ERROR]. *)
Definition ingestConfig (config : JSValue) : list LogCall * Completion :=
  match ingest config with
  | inl validatedConfig =>
      match JSON.stringify Number_toString (stringify_depth validatedConfig)
              config_replacer validatedConfig with
      | Some (JSON.Gives jsonConfig) =>
          let args := [js_of_serialized jsonConfig] in
          match logger_info "Parsed config: %s" args with
          | None =>
              ([("Parsed config: %s", args)], Returned validatedConfig)
          | Some message =>
              ([("Parsed config: %s", args)],
               Thrown ("[CONFIG ERROR] " +:+ message))
          end
      | Some (JSON.Throws message) =>
          ([], Thrown ("[CONFIG ERROR] " +:+ message))
      | None =>
          ([], Thrown ("[CONFIG ERROR] " +:+ "Maximum call stack size exceeded"))
      end
  | inr message => ([], Thrown ("[CONFIG ERROR] " +:+ message))
  end.

End Casa.

(** A validated configuration with a session store and a secret. *)
Definition example_config (store secret : JSValue) : JSValue :=
  JObject [
    ("mountUrl", JString "/");
    ("sessions", JObject [
       ("secure", JBool false);
       ("store", store);
       ("name", JString "casa-session");
       ("secret", secret);
       ("ttl", JNumber 3600)]);
    ("i18n", JObject [("locales", JArray [JString "en"; JString "cy"])]);
    ("mountController", JFunction "mountController")].

(** Entries of two objects that agree, and entries under a withheld key. *)
Ltac same_entry := split; [reflexivity | right; apply secret_equiv_same].
Ltac secret_entry := split; [reflexivity | left; reflexivity].

(** ** Further vocabulary *)

(** The string has no slash. *)
Definition has_no_slash (s : string) : bool :=
  string_forallb (fun c => negb (Char.is_slash c)) s.

(** The last character is a slash; [b] for the empty string. *)
Fixpoint last_is_slash (b : bool) (s : string) : bool :=
  match s with
  | EmptyString => b
  | String c s' => last_is_slash (Char.is_slash c) s'
  end.


(** Some object of the value, at any depth, has a property named [store]
    or [secret]. *)
Fixpoint mentions_withheld_key (v : JSValue) : bool :=
  match v with
  | JArray elems => existsb mentions_withheld_key elems
  | JObject props =>
      existsb (fun kv : string * JSValue =>
                 is_secret_key kv.1 || mentions_withheld_key kv.2) props
  | _ => false
  end.

(** [JSON.stringify(value)] without a replacer: every value is kept. *)
Definition no_replacer (k : string) (v : JSValue) : JSValue := v.

(** The value with the literal in the place of whatever a property
    named [store] or [secret] holds, at any depth. *)
Fixpoint redact (v : JSValue) : JSValue :=
  match v with
  | JArray elems => JArray (map redact elems)
  | JObject props =>
      JObject (map (fun kv : string * JSValue =>
                      (kv.1, if is_secret_key kv.1
                             then JString "[NOT PARSED]"
                             else redact kv.2)) props)
  | _ => v
  end.

Definition is_withheld_literal (v : JSValue) : bool :=
  match v with JString s => String.eqb s "[NOT PARSED]" | _ => false end.

(** Every property named [store] or [secret], at any depth, holds the
    literal. *)
Fixpoint withheld_everywhere (v : JSValue) : bool :=
  match v with
  | JArray elems => forallb withheld_everywhere elems
  | JObject props =>
      forallb (fun kv : string * JSValue =>
                 if is_secret_key kv.1 then is_withheld_literal kv.2
                 else withheld_everywhere kv.2) props
  | _ => true
  end.



(** Stand-ins for the collaborators of [ingestConfig] in the examples:
    an [ingest] that accepts objects as they are, and a logger that does
    not throw. *)
Definition accept_objects (config : JSValue) : JSValue + string :=
  match config with
  | JObject _ => inl config
  | _ => inr "config must be an object"
  end.

Definition quiet_logger (fmt : string) (args : list JSValue) : option string :=
  None.

(** * Properties *)

(** ** Slash collapsing *)

Lemma is_slash_true c : Char.is_slash c = true -> c = "/"%char.
Proof. unfold Char.is_slash. apply Ascii.eqb_eq. Qed.

Lemma replace_slash_runs_head s :
  head_is_slash (replace_slash_runs true s) = false.
Proof.
  induction s as [|c s IH]; simpl; [done|].
  destruct (Char.is_slash c) eqn:Hc; simpl; [exact IH | exact Hc].
Qed.

Lemma replace_slash_runs_no_run b s :
  no_slash_run (replace_slash_runs b s) = true.
Proof.
  revert b. induction s as [|c s IH]; intros b; simpl; [done|].
  destruct (Char.is_slash c) eqn:Hc.
  - destruct b; [apply IH|].
    simpl. rewrite IH, andb_true_r.
    pose proof (replace_slash_runs_head s) as Hh.
    destruct (replace_slash_runs true s); simpl in *; [done|].
    by rewrite Hh.
  - simpl. rewrite IH, andb_true_r, Hc.
    by destruct (replace_slash_runs false s).
Qed.

Lemma replace_slash_runs_drop b s :
  drop_slashes (replace_slash_runs b s) = drop_slashes s.
Proof.
  revert b. induction s as [|c s IH]; intros b; simpl; [done|].
  destruct (Char.is_slash c) eqn:Hc.
  - destruct b; simpl; by rewrite IH.
  - simpl. by rewrite Hc, IH.
Qed.

Lemma replace_slash_runs_fixed s :
  no_slash_run s = true -> replace_slash_runs false s = s
  /\ (head_is_slash s = false -> replace_slash_runs true s = s).
Proof.
  induction s as [|c s IH]; simpl; [done|].
  intros [Hc Hs]%andb_true_iff. destruct (IH Hs) as [IH1 IH2].
  destruct (Char.is_slash c) eqn:Hcs.
  - split; [|done]. rewrite (is_slash_true _ Hcs). f_equal. apply IH2.
    destruct s; simpl in *; [done|]. by destruct (Char.is_slash a).
  - split; intros; by rewrite IH1.
Qed.

Example collapse_slashes_examples :
  collapse_slashes "//main///step-four" = "/main/step-four"
  /\ collapse_slashes "/app/" = "/app/"
  /\ collapse_slashes "" = "".
Proof. repeat split; reflexivity. Qed.

Lemma collapse_slashes_no_run s : no_slash_run (collapse_slashes s) = true.
Proof. apply replace_slash_runs_no_run. Qed.

Lemma collapse_slashes_idemp s :
  collapse_slashes (collapse_slashes s) = collapse_slashes s.
Proof. apply replace_slash_runs_fixed, collapse_slashes_no_run. Qed.

Lemma drop_slashes_app s t :
  drop_slashes (s +:+ t) = drop_slashes s +:+ drop_slashes t.
Proof.
  induction s as [|c s IH]; simpl; [done|].
  destruct (Char.is_slash c); simpl; by rewrite IH.
Qed.

Lemma drop_slashes_join a b c :
  drop_slashes (a +:+ "/" +:+ b +:+ "/" +:+ c) = drop_slashes (a +:+ b +:+ c).
Proof. by rewrite !drop_slashes_app. Qed.

Lemma collapse_slashes_keeps_others s :
  drop_slashes (collapse_slashes s) = drop_slashes s.
Proof. apply replace_slash_runs_drop. Qed.

(** ** The waypoint pattern *)

Lemma is_upper_not_in_class c :
  Char.is_upper c = true -> Char.in_waypoint_class c = false.
Proof. destruct c as [[] [] [] [] [] [] [] []]; vm_compute; congruence. Qed.

Lemma in_class_to_lower c :
  Char.in_waypoint_class c = true ->
  Char.in_waypoint_class (Char.to_lower c) = true.
Proof.
  intros Hc. unfold Char.to_lower.
  destruct (Char.is_upper c) eqn:Hu; [|done].
  apply is_upper_not_in_class in Hu. congruence.
Qed.

Lemma string_forallb_impl (p q : ascii -> bool) s :
  (forall c, p c = true -> q c = true) ->
  string_forallb p s = true -> string_forallb q s = true.
Proof.
  intros Hpq. induction s as [|c s IH]; simpl; [done|].
  intros [Hc Hs]%andb_true_iff. by rewrite (Hpq _ Hc), IH.
Qed.

Example waypoint_id_pattern_examples :
  waypoint_id_pattern "step-four" = true
  /\ waypoint_id_pattern "STEP-FOUR" = false
  /\ waypoint_id_pattern "" = false
  /\ waypoint_id_pattern "a/b" = false
  /\ waypoint_id_pattern (string_repeat "a" 200) = true
  /\ waypoint_id_pattern (string_repeat "a" 201) = false.
Proof. repeat split; reflexivity. Qed.

Example skipto_pattern_examples :
  skipto_pattern "step-four" = true
  /\ skipto_pattern "STEP-FOUR" = true
  /\ skipto_pattern "" = false
  /\ skipto_pattern "a/b" = false
  /\ skipto_pattern "a b" = false
  /\ skipto_pattern (string_repeat "Z" 200) = true
  /\ skipto_pattern (string_repeat "Z" 201) = false.
Proof. repeat split; reflexivity. Qed.

Lemma to_lower_class c :
  Char.in_waypoint_class (Char.to_lower c) = Char.in_any_case_class c.
Proof. destruct c as [[] [] [] [] [] [] [] []]; reflexivity. Qed.

Lemma string_forallb_ext (p q : ascii -> bool) s :
  (forall c, p c = q c) -> string_forallb p s = string_forallb q s.
Proof.
  intros Hpq. induction s as [|c s IH]; simpl; [done|]. by rewrite Hpq, IH.
Qed.

(** The middleware's pattern is [^[a-zA-Z0-9-]{1,200}$]. *)
Lemma skipto_pattern_any_case s :
  skipto_pattern s
  = (1 <=? String.length s)%nat && (String.length s <=? 200)%nat
    && string_forallb Char.in_any_case_class s.
Proof.
  unfold skipto_pattern, match_waypoint_re. f_equal.
  apply string_forallb_ext, to_lower_class.
Qed.

(** Every id of the specification's pattern passes the middleware's. *)
Lemma waypoint_id_pattern_accepted s :
  waypoint_id_pattern s = true -> skipto_pattern s = true.
Proof.
  unfold waypoint_id_pattern, skipto_pattern, match_waypoint_re.
  intros [Hl Hc]%andb_true_iff. rewrite Hl. simpl.
  revert Hc. apply string_forallb_impl, in_class_to_lower.
Qed.

(** ** The skip middleware, for any journey context *)

Section SkipFacts.

Context {JC D E : Type} `{!JourneyContextOps JC D E}.

Implicit Types (w : World JC D E) (r : Request JC D E).

Lemma new_events_recording w evs : new_events w (recording w evs) = evs.
Proof. unfold new_events, recording; simpl. by rewrite drop_app_length. Qed.

(** The three ways through the middleware. *)
Lemma skip_exec mountUrl w :
  exec (skip mountUrl) w =
    if is_undefined (skipto_of (req w)) then recording w [NextCalled]
    else if invalid_skipto (skipto_of (req w)) then
      recording w [ResStatus 400; ResSend "Invalid waypoint"]
    else {| req := skipped_request (req w);
            trace := trace w ++ skip_events mountUrl w;
            saveResult := saveResult w |}.
Proof.
  unfold skip, exec, bind, get_req, skipto_of. simpl.
  destruct (is_undefined _); [done|].
  destruct (invalid_skipto _); [unfold recording; simpl; by rewrite <- app_assoc|].
  unfold skip_events, save_error_log, session_save, emit, put_req; simpl.
  destruct (truthy (saveResult w)); simpl;
    repeat rewrite <- app_assoc; reflexivity.
Qed.

Lemma invalid_skipto_matching v :
  invalid_skipto v = negb (string_matching skipto_pattern v).
Proof. by destruct v. Qed.

Lemma string_matching_defined p v :
  string_matching p v = true -> is_undefined v = false.
Proof. by destruct v. Qed.

Lemma skip_exec_valid mountUrl w :
  valid_skipto (req w) = true ->
  exec (skip mountUrl) w =
    {| req := skipped_request (req w);
       trace := trace w ++ skip_events mountUrl w;
       saveResult := saveResult w |}.
Proof.
  unfold valid_skipto. intros Hv. rewrite skip_exec.
  rewrite (string_matching_defined _ _ Hv), invalid_skipto_matching, Hv.
  reflexivity.
Qed.

Lemma new_events_skip mountUrl w :
  valid_skipto (req w) = true ->
  new_events w (exec (skip mountUrl) w) = skip_events mountUrl w.
Proof.
  intros Hv. rewrite (skip_exec_valid _ _ Hv).
  unfold new_events; simpl. by rewrite drop_app_length.
Qed.

(** C8: when [skipto] is absent from the query (undefined), the
    middleware only calls [next]: the request, with its journey data,
    validation errors and session, is unchanged, and nothing is sent on
    the response. *)
Theorem skip_absent_passes_through mountUrl w :
  skipto_of (req w) = JUndefined ->
  exec (skip mountUrl) w = recording w [NextCalled]
  /\ req (exec (skip mountUrl) w) = req w
  /\ new_events w (exec (skip mountUrl) w) = [NextCalled].
Proof.
  intros Hu. rewrite skip_exec, Hu. simpl.
  split; [done|]. split; [done|]. apply new_events_recording.
Qed.

(** C1 (amended): when [skipto] is present and is not a string matching
    the waypoint pattern read without regard to case,
    [^[a-zA-Z0-9-]{1,200}$], the middleware answers status 400 with
    the body 'Invalid waypoint' and changes nothing of the request
    (journey data, validation errors, session); when it is such a
    string, no status 400 is issued. *)
Theorem skip_rejects_invalid_skipto mountUrl w :
  skipto_of (req w) <> JUndefined ->
  (string_matching skipto_pattern (skipto_of (req w)) = false ->
     exec (skip mountUrl) w =
       recording w [ResStatus 400; ResSend "Invalid waypoint"])
  /\ (string_matching skipto_pattern (skipto_of (req w)) = true ->
       ResStatus 400 ∉ new_events w (exec (skip mountUrl) w))
  /\ (forall s,
        skipto_pattern s
        = (1 <=? String.length s)%nat && (String.length s <=? 200)%nat
          && string_forallb Char.in_any_case_class s).
Proof.
  intros Hd. split; [|split]; [intros Hm|intros Hm|apply skipto_pattern_any_case].
  - rewrite skip_exec, invalid_skipto_matching, Hm. simpl.
    by destruct (skipto_of (req w)).
  - rewrite new_events_skip by exact Hm.
    unfold skip_events, save_error_log.
    destruct (truthy _); simpl;
      rewrite !not_elem_of_cons; repeat split; try discriminate;
      apply not_elem_of_nil.
Qed.

(** C4: for a valid [skipto], the middleware first asks for the session
    to be saved and then answers status 302 with a redirect to
    [mountUrl], the origin id (the empty string when the request has no
    [journeyOrigin]) and [skipto] joined by slashes, every run of
    slashes collapsed to one. *)
Theorem skip_redirects_to_target mountUrl w s :
  skipto_of (req w) = JString s ->
  skipto_pattern s = true ->
  let w' := exec (skip mountUrl) w in
  let target :=
    collapse_slashes
      (mountUrl +:+ "/" +:+ origin_segment (origin_of (req w))
                +:+ "/" +:+ s) in
  new_events w w' =
    [LogInfo "Marking waypoint %s as skipped"
             [JString (journeyWaypointId (req w))];
     SessionSave (session (req w'))]
    ++ save_error_log (saveResult w)
    ++ [ResStatus 302; ResRedirect target]
  /\ filter (fun e => is_response_event e = true) (new_events w w')
      = [ResStatus 302; ResRedirect target]
  /\ no_slash_run target = true
  /\ drop_slashes target
      = drop_slashes (mountUrl +:+ origin_segment (origin_of (req w)) +:+ s)
  /\ (journeyOrigin (req w) = None -> origin_segment (origin_of (req w)) = "")
  /\ redirect_target "/" {| originId := Some "main" |} "step-four"
      = "/main/step-four".
Proof.
  intros Hs Hp w' target.
  assert (Hv : valid_skipto (req w) = true) by (unfold valid_skipto; by rewrite Hs).
  assert (Hn : new_events w w' =
    [LogInfo "Marking waypoint %s as skipped"
             [JString (journeyWaypointId (req w))];
     SessionSave (session (req w'))]
    ++ save_error_log (saveResult w)
    ++ [ResStatus 302; ResRedirect target]).
  { subst w'. rewrite (new_events_skip _ _ Hv), (skip_exec_valid _ _ Hv).
    unfold skip_events, target, redirect_target. by rewrite Hs. }
  split; [exact Hn|]. split; [|split; [|split; [|split]]].
  - rewrite Hn. unfold save_error_log. by destruct (truthy _).
  - apply collapse_slashes_no_run.
  - unfold target. rewrite collapse_slashes_keeps_others.
    apply drop_slashes_join.
  - unfold origin_of. by intros ->.
  - reflexivity.
Qed.

(** C9: for a valid [skipto], a failed save of the session is only
    logged: the response (status 302 and the redirect to the skip
    target) and the request, with the skip marker in memory, are the
    same as after a successful save. *)
Theorem skip_save_failure_only_logged mountUrl w err :
  valid_skipto (req w) = true ->
  truthy err = true ->
  let failed := exec (skip mountUrl) (with_saveResult w err) in
  let saved := exec (skip mountUrl) (with_saveResult w JNull) in
  filter (fun e => is_response_event e = true) (new_events w failed)
    = [ResStatus 302;
       ResRedirect (redirect_target mountUrl (origin_of (req w))
                      (skipto_text (skipto_of (req w))))]
  /\ filter (fun e => is_response_event e = true) (new_events w failed)
      = filter (fun e => is_response_event e = true) (new_events w saved)
  /\ filter (fun e => is_log_event e = true) (new_events w failed)
      = filter (fun e => is_log_event e = true) (new_events w saved)
        ++ [LogError err]
  /\ filter (fun e => is_log_event e = false) (new_events w failed)
      = filter (fun e => is_log_event e = false) (new_events w saved)
  /\ req failed = req saved
  /\ req failed = skipped_request (req w).
Proof.
  intros Hv He failed saved.
  assert (Hf : new_events w failed = skip_events mountUrl (with_saveResult w err))
    by apply (new_events_skip mountUrl (with_saveResult w err) Hv).
  assert (Hs : new_events w saved = skip_events mountUrl (with_saveResult w JNull))
    by apply (new_events_skip mountUrl (with_saveResult w JNull) Hv).
  rewrite Hf, Hs. unfold failed, saved.
  rewrite !skip_exec_valid by exact Hv.
  unfold skip_events, save_error_log; simpl. rewrite He. simpl.
  done.
Qed.

(** C6 (amended): there is no separate core operation: for a valid
    [skipto] the skip middleware itself writes to the log (one info
    entry naming the current waypoint, and the error of a failed save)
    and to the response (status 302 and the redirect), and itself
    builds the redirect path from [mountUrl], the origin id and
    [skipto]. *)
Theorem skip_logs_and_responds_itself mountUrl w :
  valid_skipto (req w) = true ->
  let w' := exec (skip mountUrl) w in
  filter (fun e => is_log_event e = true) (new_events w w')
    = LogInfo "Marking waypoint %s as skipped"
              [JString (journeyWaypointId (req w))]
      :: save_error_log (saveResult w)
  /\ filter (fun e => is_response_event e = true) (new_events w w')
      = [ResStatus 302;
         ResRedirect
           (collapse_slashes
              (mountUrl +:+ "/" +:+ origin_segment (origin_of (req w))
                        +:+ "/" +:+ skipto_text (skipto_of (req w))))].
Proof.
  intros Hv w'. unfold w'. rewrite (new_events_skip _ _ Hv).
  unfold skip_events, save_error_log, redirect_target.
  by destruct (truthy _).
Qed.

(** C7 (amended): for a valid [skipto] the skip middleware itself
    persists the change: after the journey context is changed in
    memory it assigns the context's data and validation errors to the
    session and calls [session.save] exactly once, before anything is
    sent on the response; the rest of the session and of the request
    is left as it was. *)
Theorem skip_saves_session_itself mountUrl w :
  valid_skipto (req w) = true ->
  let w' := exec (skip mountUrl) w in
  filter (fun e => is_save_event e = true) (new_events w w')
    = [SessionSave (session (req w'))]
  /\ session (req w')
      = {| sess_journeyData := Some (getData (journeyData (req w')));
           sess_journeyValidationErrors :=
             Some (getValidationErrors (journeyData (req w')));
           sess_rest := sess_rest (session (req w)) |}
  /\ (exists pre post,
        new_events w w' = pre ++ SessionSave (session (req w')) :: post
        /\ forallb (fun e => negb (is_response_event e)) pre = true
        /\ forallb (fun e => negb (is_save_event e)) (pre ++ post) = true)
  /\ query (req w') = query (req w)
  /\ journeyOrigin (req w') = journeyOrigin (req w)
  /\ journeyWaypointId (req w') = journeyWaypointId (req w).
Proof.
  intros Hv w'. unfold w'. rewrite (new_events_skip _ _ Hv).
  rewrite (skip_exec_valid _ _ Hv). simpl.
  unfold skip_events, save_error_log.
  split; [by destruct (truthy _)|]. split; [done|].
  split; [|done].
  eexists [_], _. split; [reflexivity|].
  split; [done|]. by destruct (truthy _).
Qed.

End SkipFacts.

(** ** The skip middleware over the journey context *)

Section SkipOverContext.

Implicit Types (w : CasaWorld) (r : CasaRequest).

Lemma skipped_request_idemp r :
  skipped_request (skipped_request r) = skipped_request r.
Proof.
  unfold skipped_request; simpl.
  unfold JourneyContext.setDataForWaypoint, JourneyContext.clearValidationErrors.
  simpl. by rewrite insert_insert_eq, delete_delete_eq.
Qed.

(** C2: for a valid [skipto], the data stored for the current waypoint
    becomes exactly [{ __skipped__: true }], whatever was stored for it
    before; the data of the other waypoints is kept, and the session
    receives the same data. *)
Theorem skip_overwrites_waypoint_data mountUrl w :
  valid_skipto (req w) = true ->
  let w' := exec (skip mountUrl) w in
  let W := journeyWaypointId (req w) in
  JourneyContext.data (journeyData (req w')) !! W
    = Some (JObject [("__skipped__", JBool true)])
  /\ JourneyContext.getDataForWaypoint W (journeyData (req w'))
      = JObject [("__skipped__", JBool true)]
  /\ JourneyContext.isSkipped W (journeyData (req w')) = true
  /\ JourneyContext.data (journeyData (req w'))
      = <[W := skip_marker]> (JourneyContext.data (journeyData (req w)))
  /\ sess_journeyData (session (req w'))
      = Some (JourneyContext.data (journeyData (req w'))).
Proof.
  intros Hv w' W. unfold w'. rewrite (skip_exec_valid _ _ Hv). simpl.
  unfold JourneyContext.getDataForWaypoint, JourneyContext.isSkipped. simpl.
  fold W. rewrite lookup_insert_eq. done.
Qed.

(** C3: for a valid [skipto], the validation errors of the current
    waypoint are cleared, and cleared before the marker is written:
    the resulting context, and the session, hold no validation errors
    for that waypoint. *)
Theorem skip_clears_validation_errors mountUrl w :
  valid_skipto (req w) = true ->
  let w' := exec (skip mountUrl) w in
  let W := journeyWaypointId (req w) in
  journeyData (req w')
    = JourneyContext.setDataForWaypoint W skip_marker
        (JourneyContext.clearValidationErrors W (journeyData (req w)))
  /\ JourneyContext.validation (journeyData (req w')) !! W = None
  /\ JourneyContext.getValidationErrorsForWaypoint W (journeyData (req w')) = []
  /\ JourneyContext.validation (journeyData (req w'))
      = delete W (JourneyContext.validation (journeyData (req w)))
  /\ sess_journeyValidationErrors (session (req w'))
      = Some (JourneyContext.validation (journeyData (req w'))).
Proof.
  intros Hv w' W. unfold w'. rewrite (skip_exec_valid _ _ Hv). simpl.
  unfold JourneyContext.getValidationErrorsForWaypoint. simpl.
  fold W. rewrite lookup_delete_eq. done.
Qed.

(** C5: the skip is idempotent: running the middleware a second time on
    the request it has left (same waypoint, same [skipto], same mount
    URL) leaves the same journey data, validation errors and session
    as the first run, whatever the session store answers. *)
Theorem skip_idempotent mountUrl w err :
  let once := exec (skip mountUrl) w in
  let twice := exec (skip mountUrl) (with_saveResult once err) in
  req twice = req once
  /\ journeyData (req twice) = journeyData (req once)
  /\ session (req twice) = session (req once).
Proof.
  intros once twice.
  assert (Hr : req twice = req once); [|by rewrite Hr].
  unfold twice, once. rewrite (skip_exec mountUrl w).
  destruct (is_undefined (skipto_of (req w))) eqn:Hu.
  { rewrite skip_exec. simpl. by rewrite Hu. }
  destruct (invalid_skipto (skipto_of (req w))) eqn:Hi.
  { rewrite skip_exec. simpl. by rewrite Hu, Hi. }
  rewrite skip_exec. simpl.
  change (skipto_of (skipped_request (req w))) with (skipto_of (req w)).
  rewrite Hu, Hi. simpl. apply skipped_request_idemp.
Qed.

End SkipOverContext.

(** ** The scenario of the specification, and other concrete requests *)

Lemma skip_absent_passes_through_witness :
  skipto_of (req (scenario_world None JNull)) = JUndefined
  /\ exec (skip "/") (scenario_world None JNull)
     = recording (scenario_world None JNull) [NextCalled].
Proof.
  split; [reflexivity|].
  apply (skip_absent_passes_through "/" (scenario_world None JNull)).
  reflexivity.
Defined.

Lemma skip_rejects_invalid_skipto_witness :
  exec (skip "/") (scenario_world (Some (JString "../admin")) JNull)
    = recording (scenario_world (Some (JString "../admin")) JNull)
        [ResStatus 400; ResSend "Invalid waypoint"]
  /\ exec (skip "/")
       (scenario_world (Some (JArray [JString "a"; JString "b"])) JNull)
     = recording
         (scenario_world (Some (JArray [JString "a"; JString "b"])) JNull)
         [ResStatus 400; ResSend "Invalid waypoint"]
  /\ ResStatus 400
     ∉ new_events (scenario_world (Some (JString "Step-4")) JNull)
         (exec (skip "/") (scenario_world (Some (JString "Step-4")) JNull)).
Proof.
  split; [|split].
  - apply (skip_rejects_invalid_skipto "/"
             (scenario_world (Some (JString "../admin")) JNull));
      [discriminate | reflexivity].
  - apply (skip_rejects_invalid_skipto "/"
             (scenario_world (Some (JArray [JString "a"; JString "b"])) JNull));
      [discriminate | reflexivity].
  - apply (skip_rejects_invalid_skipto "/"
             (scenario_world (Some (JString "Step-4")) JNull));
      [discriminate | reflexivity].
Defined.

(** C1, as stated with the lower-case pattern, fails: [STEP-FOUR] does not
    match [^[a-z0-9-]{1,200}$], and yet no status 400 is sent and the
    journey data is changed. *)
Lemma skip_lower_case_pattern_counterexample :
  let w := scenario_world (Some (JString "STEP-FOUR")) JNull in
  let w' := exec (skip "/") w in
  skipto_of (req w) <> JUndefined
  /\ string_matching waypoint_id_pattern (skipto_of (req w)) = false
  /\ w' <> recording w [ResStatus 400; ResSend "Invalid waypoint"]
  /\ (ResStatus 400 ∉ new_events w w')
  /\ (ResRedirect "/main/STEP-FOUR" ∈ new_events w w')
  /\ journeyData (req w') <> journeyData (req w).
Proof.
  split; [discriminate|]. split; [reflexivity|].
  split; [|split; [|split]].
  - intros H. apply (f_equal (fun x => length (trace x))) in H.
    vm_compute in H. discriminate.
  - rewrite new_events_skip by reflexivity.
    unfold skip_events; simpl.
    rewrite !not_elem_of_cons. repeat split; try discriminate.
    apply not_elem_of_nil.
  - apply list_elem_of_lookup. exists 3%nat. reflexivity.
  - intros H.
    apply (f_equal (fun c => JourneyContext.data c !! "step-two")) in H.
    vm_compute in H. discriminate.
Qed.

Lemma skip_redirects_to_target_witness :
  let w := scenario_world (Some (JString "step-four")) JNull in
  new_events w (exec (skip "/") w)
  = [LogInfo "Marking waypoint %s as skipped" [JString "step-two"];
     SessionSave (session (req (exec (skip "/") w)));
     ResStatus 302; ResRedirect "/main/step-four"].
Proof.
  apply (skip_redirects_to_target "/"
           (scenario_world (Some (JString "step-four")) JNull) "step-four");
    reflexivity.
Defined.

Lemma skip_save_failure_only_logged_witness :
  let w := scenario_world (Some (JString "step-four")) JUndefined in
  let failed := exec (skip "/") (with_saveResult w (JString "store down")) in
  let saved := exec (skip "/") (with_saveResult w JNull) in
  filter (fun e => is_response_event e = true) (new_events w failed)
    = [ResStatus 302; ResRedirect "/main/step-four"]
  /\ req failed = req saved.
Proof.
  pose proof (skip_save_failure_only_logged "/"
    (scenario_world (Some (JString "step-four")) JUndefined)
    (JString "store down") eq_refl eq_refl) as (H1 & _ & _ & _ & H4 & _).
  split; [exact H1 | exact H4].
Defined.

Lemma skip_overwrites_waypoint_data_witness :
  let w := scenario_world (Some (JString "step-four")) JNull in
  JourneyContext.data (journeyData (req w)) !! "step-two"
    = Some (JObject [("age", JString "x")])
  /\ JourneyContext.data (journeyData (req (exec (skip "/") w))) !! "step-two"
     = Some (JObject [("__skipped__", JBool true)]).
Proof.
  split; [reflexivity|].
  apply (skip_overwrites_waypoint_data "/"
           (scenario_world (Some (JString "step-four")) JNull)).
  reflexivity.
Defined.

Lemma skip_clears_validation_errors_witness :
  let w := scenario_world (Some (JString "step-four")) JNull in
  JourneyContext.validation (journeyData (req w)) !! "step-two"
    = Some [JObject [("field", JString "age")]]
  /\ JourneyContext.validation (journeyData (req (exec (skip "/") w)))
       !! "step-two" = None.
Proof.
  split; [reflexivity|].
  apply (skip_clears_validation_errors "/"
           (scenario_world (Some (JString "step-four")) JNull)).
  reflexivity.
Defined.

(** C6, as stated, fails: on the scenario's request the skip operation
    writes to the log and to the response, and the redirect path it
    sends is one it has built itself. *)
Lemma skip_silent_core_counterexample :
  let w := scenario_world (Some (JString "step-four")) JNull in
  let w' := exec (skip "/") w in
  valid_skipto (req w) = true
  /\ (LogInfo "Marking waypoint %s as skipped" [JString "step-two"]
      ∈ new_events w w')
  /\ (ResRedirect "/main/step-four" ∈ new_events w w')
  /\ forallb (fun e => negb (is_log_event e) && negb (is_response_event e))
       (new_events w w') = false.
Proof.
  split; [reflexivity|]. split; [|split].
  - apply list_elem_of_lookup. exists 0%nat. reflexivity.
  - apply list_elem_of_lookup. exists 3%nat. reflexivity.
  - reflexivity.
Qed.

Lemma skip_logs_and_responds_itself_witness :
  let w := scenario_world (Some (JString "step-four")) (JString "store down") in
  filter (fun e => is_log_event e = true) (new_events w (exec (skip "/") w))
  = [LogInfo "Marking waypoint %s as skipped" [JString "step-two"];
     LogError (JString "store down")]
  /\ filter (fun e => is_response_event e = true)
       (new_events w (exec (skip "/") w))
     = [ResStatus 302; ResRedirect "/main/step-four"].
Proof.
  apply (skip_logs_and_responds_itself "/"
    (scenario_world (Some (JString "step-four")) (JString "store down"))).
  reflexivity.
Defined.

(** C7, as stated, fails: on the scenario's request it is the skip
    operation itself that assigns the session and asks for it to be
    saved. *)
Lemma skip_no_persistence_counterexample :
  let w := scenario_world (Some (JString "step-four")) JNull in
  let w' := exec (skip "/") w in
  valid_skipto (req w) = true
  /\ (SessionSave (session (req w')) ∈ new_events w w')
  /\ forallb (fun e => negb (is_save_event e)) (new_events w w') = false
  /\ session (req w') <> session (req w).
Proof.
  split; [reflexivity|]. split; [|split].
  - apply list_elem_of_lookup. exists 1%nat. reflexivity.
  - reflexivity.
  - intros H. apply (f_equal sess_journeyData) in H.
    vm_compute in H. discriminate.
Qed.

Lemma skip_saves_session_itself_witness :
  let w := scenario_world (Some (JString "step-four")) JNull in
  filter (fun e => is_save_event e = true) (new_events w (exec (skip "/") w))
  = [SessionSave (session (req (exec (skip "/") w)))].
Proof.
  apply (skip_saves_session_itself "/"
    (scenario_world (Some (JString "step-four")) JNull)).
  reflexivity.
Defined.

(** ** Serialization *)

Section MapMIndexed.

Context {A B : Type}.

Implicit Types (f g : nat -> A -> option (JSON.Outcome B)).

Lemma mapM_indexed_Forall2 (R : A -> A -> Prop) f g l1 l2 :
  Forall2 R l1 l2 ->
  (forall i x y, R x y -> f i x = g i y) ->
  forall i, JSON.mapM_indexed f i l1 = JSON.mapM_indexed g i l2.
Proof.
  intros HR Hfg. induction HR as [|x y l1 l2 Hxy _ IH]; intros i; simpl.
  - reflexivity.
  - by rewrite (Hfg i x y Hxy), IH.
Qed.

Lemma mapM_indexed_Forall (P : A -> Prop) f g l :
  Forall P l ->
  (forall i x, P x -> f i x = g i x) ->
  forall i, JSON.mapM_indexed f i l = JSON.mapM_indexed g i l.
Proof.
  intros HP Hfg. induction HP as [|x l Hx _ IH]; intros i; simpl; [done|].
  by rewrite (Hfg i x Hx), IH.
Qed.

Lemma mapM_indexed_Some_impl f g l :
  (forall i x r, f i x = Some r -> g i x = Some r) ->
  forall i r, JSON.mapM_indexed f i l = Some r ->
              JSON.mapM_indexed g i l = Some r.
Proof.
  intros Hfg. induction l as [|x l IH]; intros i r; simpl; [done|].
  destruct (f i x) as [[m|y]|] eqn:Hf; simpl; [| |done];
    rewrite (Hfg _ _ _ Hf); simpl; [done|].
  destruct (JSON.mapM_indexed f (S i) l) as [o|] eqn:Hl; simpl; [|done].
  by rewrite (IH _ _ Hl).
Qed.

Lemma mapM_indexed_is_Some f l :
  Forall (fun x => forall i, is_Some (f i x)) l ->
  forall i, is_Some (JSON.mapM_indexed f i l).
Proof.
  induction 1 as [|x l Hx _ IH]; intros i; simpl; [by eexists|].
  destruct (Hx i) as [[m|y] ->]; simpl; [by eexists|].
  destruct (IH (S i)) as [[m|ys] ->]; by eexists.
Qed.


End MapMIndexed.

Lemma mapM_indexed_map {A A' B} (h : A -> A')
    (g : nat -> A' -> option (JSON.Outcome B)) l :
  forall i,
    JSON.mapM_indexed g i (map h l)
    = JSON.mapM_indexed (fun i x => g i (h x)) i l.
Proof. induction l as [|x l IH]; intros i; simpl; [done|]. by rewrite IH. Qed.

Lemma height_elems_lt elems :
  Forall (fun e => (height e < height (JArray elems))%nat) elems.
Proof.
  simpl. induction elems as [|e l IH]; constructor; simpl.
  - lia.
  - eapply Forall_impl; [exact IH|]. simpl. intros; lia.
Qed.

Lemma height_props_lt props :
  Forall (fun kv : string * JSValue =>
            (height kv.2 < height (JObject props))%nat) props.
Proof.
  simpl. induction props as [|e l IH]; constructor; simpl.
  - lia.
  - eapply Forall_impl; [exact IH|]. simpl. intros; lia.
Qed.

(** Induction on a value through its elements and properties. *)
Lemma JSValue_nested_ind (P : JSValue -> Prop) :
  (forall v, height v = 0%nat -> P v) ->
  (forall elems, Forall P elems -> P (JArray elems)) ->
  (forall props, Forall (fun kv : string * JSValue => P kv.2) props ->
                 P (JObject props)) ->
  forall v, P v.
Proof.
  intros Hleaf Harr Hobj v.
  assert (H : forall n u, (height u < n)%nat -> P u);
    [|apply (H (S (height v))); lia].
  clear v. induction n as [|n IH]; intros u Hu; [lia|].
  destruct u as [| |b|k|s|elems|props|f|k|]; try (by apply Hleaf).
  - apply Harr. eapply Forall_impl; [apply height_elems_lt|].
    intros e He. cbv beta in He. apply IH. lia.
  - apply Hobj. eapply Forall_impl; [apply height_props_lt|].
    intros e He. cbv beta in He. apply IH. lia.
Qed.

Lemma is_secret_key_spec k :
  is_secret_key k = true <-> k = "store" \/ k = "secret".
Proof.
  unfold is_secret_key, indexOf, indexOf_from.
  destruct (String.eqb_spec "store" k) as [<-|Hs];
    [split; [by left | reflexivity]|].
  destruct (String.eqb_spec "secret" k) as [<-|Hk];
    [split; [by right | reflexivity]|].
  split; [done|]. by intros [-> | ->].
Qed.

Lemma config_replacer_secret k v :
  is_secret_key k = true -> config_replacer k v = JString "[NOT PARSED]".
Proof. unfold config_replacer, is_secret_key. by intros ->. Qed.

Lemma config_replacer_other k v :
  is_secret_key k = false -> config_replacer k v = v.
Proof. unfold config_replacer, is_secret_key. by intros ->. Qed.

(** The key of an array element is never a withheld key. *)
Lemma index_key_not_secret i : is_secret_key (JSON.index_key i) = false.
Proof.
  unfold JSON.index_key. by destruct (Nat.to_uint i).
Qed.

Section Serialization.

Variable Number_toString : Z -> string.

Local Abbreviation Serialize := (JSON.SerializeJSONProperty Number_toString).

(** More fuel does not change a result. *)
Lemma SerializeJSONProperty_S replacer fuel :
  forall key held r,
    Serialize fuel replacer key held = Some r ->
    Serialize (S fuel) replacer key held = Some r.
Proof.
  induction fuel as [|fuel IH]; intros key held r; [done|].
  change (JSON.serialize_property Number_toString (Serialize fuel replacer)
            replacer key held = Some r ->
          JSON.serialize_property Number_toString (Serialize (S fuel) replacer)
            replacer key held = Some r).
  unfold JSON.serialize_property.
  destruct (replacer key held) as [| |b|n|s|elems|props|f|n|]; try done.
  - destruct (JSON.mapM_indexed _ 0%nat elems) as [o|] eqn:Hm; [|done].
    intros Hr. erewrite mapM_indexed_Some_impl; [exact Hr| |exact Hm].
    intros i x y. cbv beta.
    destruct (Serialize fuel replacer _ x) as [o'|] eqn:Hx; [|done].
    by rewrite (IH _ _ _ Hx).
  - destruct (JSON.mapM_indexed _ 0%nat props) as [o|] eqn:Hm; [|done].
    intros Hr. erewrite mapM_indexed_Some_impl; [exact Hr| |exact Hm].
    intros i [k v] y. cbn [fst snd].
    destruct (Serialize fuel replacer k v) as [o'|] eqn:Hx; [|done].
    by rewrite (IH _ _ _ Hx).
Qed.

Lemma SerializeJSONProperty_mono replacer fuel fuel' key held r :
  (fuel <= fuel')%nat ->
  Serialize fuel replacer key held = Some r ->
  Serialize fuel' replacer key held = Some r.
Proof.
  induction 1 as [|fuel' _ IH]; [done|].
  intros Hr. by apply SerializeJSONProperty_S, IH.
Qed.

(** Under a withheld key every value is serialized as the literal. *)
Lemma SerializeJSONProperty_secret fuel k v :
  is_secret_key k = true ->
  Serialize (S fuel) config_replacer k v
  = Some (JSON.Gives (Some (JSON.QuoteJSONString "[NOT PARSED]"))).
Proof.
  intros Hk. simpl. unfold JSON.serialize_property.
  by rewrite (config_replacer_secret _ _ Hk).
Qed.

(** The serialization does not depend on the withheld values. *)
Lemma SerializeJSONProperty_secret_equiv fuel :
  forall k v1 v2,
    secret_equiv v1 v2 ->
    Serialize fuel config_replacer k v1 = Serialize fuel config_replacer k v2.
Proof.
  induction fuel as [|fuel IH]; intros k v1 v2 Hv; [done|].
  destruct (is_secret_key k) eqn:Hk.
  { by rewrite !SerializeJSONProperty_secret. }
  simpl. unfold JSON.serialize_property.
  rewrite !(config_replacer_other _ _ Hk).
  inversion Hv as [v|l1 l2 Hl|p1 p2 Hp]; subst; [done| |].
  - erewrite (mapM_indexed_Forall2 secret_equiv); [reflexivity|exact Hl|].
    intros i x y Hxy. simpl. by rewrite (IH _ x y Hxy).
  - erewrite mapM_indexed_Forall2; [reflexivity|exact Hp|].
    intros i [k1 x] [k2 y] [Hkk Hxy]. simpl in *. subst k2.
    destruct Hxy as [Hs|Hxy]; [|by rewrite (IH _ x y Hxy)].
    destruct fuel; [done|]. by rewrite !SerializeJSONProperty_secret.
Qed.

(** With the replacer of [ingestConfig], fuel beyond the depth of the
    value is enough. *)
Lemma SerializeJSONProperty_enough fuel :
  forall k v,
    (height v < fuel)%nat ->
    is_Some (Serialize fuel config_replacer k v).
Proof.
  induction fuel as [|fuel IH]; intros k v Hh; [lia|].
  cbn [JSON.SerializeJSONProperty]. unfold JSON.serialize_property.
  destruct (is_secret_key k) eqn:Hk.
  { rewrite (config_replacer_secret _ _ Hk). by eexists. }
  rewrite (config_replacer_other _ _ Hk).
  destruct v as [| |[]|n|s|elems|props|f|n|]; try by eexists.
  - destruct (mapM_indexed_is_Some
                (fun i v => JSON.and_then
                              (Serialize fuel config_replacer (JSON.index_key i) v)
                              (fun strP => Some (JSON.Gives (default "null" strP))))
                elems) with (i := 0%nat) as [[m|ys] Hys].
    + eapply Forall_impl; [apply height_elems_lt|].
      intros e He i. cbv beta in He.
      destruct (IH (JSON.index_key i) e) as [[m|o] ->]; [lia| |]; by eexists.
    + rewrite Hys. by eexists.
    + rewrite Hys. by eexists.
  - destruct (mapM_indexed_is_Some
                (fun (_ : nat) (kv : string * JSValue) =>
                   JSON.and_then (Serialize fuel config_replacer kv.1 kv.2)
                     (fun strP => Some (JSON.Gives (JSON.member kv.1 strP))))
                props) with (i := 0%nat) as [[m|ys] Hys].
    + eapply Forall_impl; [apply height_props_lt|].
      intros [k' e] He i. cbn [fst snd] in *.
      destruct (IH k' e) as [[m|o] ->]; [lia| |]; by eexists.
    + rewrite Hys. by eexists.
    + rewrite Hys. by eexists.
Qed.

(** The replacer gives the text of the redacted value. *)
Lemma SerializeJSONProperty_redact fuel :
  forall k v,
    is_secret_key k = false ->
    Serialize fuel config_replacer k v = Serialize fuel no_replacer k (redact v).
Proof.
  induction fuel as [|fuel IH]; intros k v Hk; [done|].
  cbn [JSON.SerializeJSONProperty]. unfold JSON.serialize_property.
  rewrite (config_replacer_other _ _ Hk).
  change (no_replacer k (redact v)) with (redact v).
  destruct v as [| |b|n|s|elems|props|f|n|]; cbn [redact]; try done.
  - rewrite mapM_indexed_map. f_equal.
    apply (mapM_indexed_Forall (fun _ => True)); [by apply Forall_true|].
    intros i e _. by rewrite (IH _ e (index_key_not_secret i)).
  - rewrite mapM_indexed_map. f_equal.
    apply (mapM_indexed_Forall (fun _ => True)); [by apply Forall_true|].
    intros i [k' e] _. cbn [fst snd].
    destruct (is_secret_key k') eqn:Hk'; [|by rewrite (IH _ e Hk')].
    destruct fuel; [done|]. by rewrite SerializeJSONProperty_secret.
Qed.

End Serialization.

(** ** [ingestConfig] *)

Example stringify_examples :
  JSON.stringify JSON.decimal 3 config_replacer
    (JArray [JUndefined; JNumber (-12); JObject []; JFunction "f"])
  = Some (JSON.Gives (Some "[null,-12,{},null]"))
  /\ JSON.stringify JSON.decimal 3 config_replacer
       (JObject [("a", JUndefined); ("secret", JUndefined); ("n", JNull)])
     = Some (JSON.Gives
               (Some (String.concat (String JSON.dquote "")
                        ["{"; "secret"; ":"; "[NOT PARSED]"; ","; "n"; ":null}"])))
  /\ JSON.stringify JSON.decimal 3 config_replacer JUndefined
     = Some (JSON.Gives None)
  /\ JSON.stringify JSON.decimal 1 config_replacer (JArray [JNull]) = None
  /\ JSON.stringify JSON.decimal 3 config_replacer
       (JObject [("a", JNull); ("self", JCircular); ("n", JBigInt 1)])
     = Some (JSON.Throws "Converting circular structure to JSON")
  /\ JSON.stringify JSON.decimal 3 config_replacer
       (JObject [("store", JCircular); ("secret", JBigInt 1)])
     = JSON.stringify JSON.decimal 3 no_replacer
         (JObject [("store", JString "[NOT PARSED]");
                   ("secret", JString "[NOT PARSED]")]).
Proof. repeat split; reflexivity. Qed.

(** In the redacted value every withheld property holds the literal. *)
Lemma redact_withheld v : withheld_everywhere (redact v) = true.
Proof.
  induction v as [v Hv|elems IH|props IH] using JSValue_nested_ind.
  - by destruct v.
  - cbn [redact withheld_everywhere]. rewrite forallb_forall.
    intros e' [e [<- He]]%in_map_iff.
    rewrite Forall_forall in IH. apply IH. by apply list_elem_of_In.
  - cbn [redact withheld_everywhere]. rewrite forallb_forall.
    intros kv' [[k e] [<- He]]%in_map_iff. cbn [fst snd].
    destruct (is_secret_key k); [reflexivity|].
    rewrite Forall_forall in IH.
    apply (IH (k, e)). by apply list_elem_of_In.
Qed.

(** The redaction changes the withheld values only. *)
Lemma redact_secret_equiv v : secret_equiv v (redact v).
Proof.
  induction v as [v Hv|elems IH|props IH] using JSValue_nested_ind.
  - destruct v; try apply secret_equiv_same; simpl in Hv; lia.
  - cbn [redact]. apply secret_equiv_array.
    induction IH as [|e l He _ IHl]; constructor; auto.
  - cbn [redact]. apply secret_equiv_object.
    induction IH as [|[k e] l He _ IHl]; constructor; [|exact IHl].
    cbn [fst snd] in *. split; [reflexivity|].
    destruct (is_secret_key k); [by left | by right].
Qed.

(** The text of an object, when there is one, is a string. *)
Lemma serialize_object_text Number_toString fuel replacer k props r :
  replacer k (JObject props) = JObject props ->
  JSON.SerializeJSONProperty Number_toString fuel replacer k (JObject props)
  = Some (JSON.Gives r) ->
  exists json, r = Some json.
Proof.
  intros Hr. destruct fuel as [|fuel]; [done|].
  cbn [JSON.SerializeJSONProperty]. unfold JSON.serialize_property.
  rewrite Hr. destruct (JSON.mapM_indexed _ 0%nat props) as [[m|ys]|]; simpl;
    [done| |done].
  intros [= <-]. by eexists.
Qed.

Section IngestConfig.

Variable Number_toString : Z -> string.
Variable logger_info : string -> list JSValue -> option string.
Variable ingest : JSValue -> JSValue + string.

Local Abbreviation stringify := (JSON.stringify Number_toString).
Local Abbreviation ingestConfig' := (ingestConfig Number_toString logger_info ingest).

Lemma stringify_config_defined v :
  is_Some (stringify (stringify_depth v) config_replacer v).
Proof. apply SerializeJSONProperty_enough. unfold stringify_depth. lia. Qed.

Lemma stringify_config_fuel v fuel :
  (stringify_depth v <= fuel)%nat ->
  stringify fuel config_replacer v
  = stringify (stringify_depth v) config_replacer v.
Proof.
  intros Hf. destruct (stringify_config_defined v) as [r Hr].
  rewrite Hr. by apply (SerializeJSONProperty_mono _ _ _ _ _ _ _ Hf).
Qed.

Lemma stringify_config_redact v fuel :
  stringify fuel config_replacer v = stringify fuel no_replacer (redact v).
Proof. by apply SerializeJSONProperty_redact. Qed.

Lemma stringify_config_secret_equiv v1 v2 :
  secret_equiv v1 v2 ->
  stringify (stringify_depth v1) config_replacer v1
  = stringify (stringify_depth v2) config_replacer v2.
Proof.
  intros Hv.
  set (n := Nat.max (stringify_depth v1) (stringify_depth v2)).
  rewrite <- (stringify_config_fuel v1 n), <- (stringify_config_fuel v2 n)
    by lia.
  by apply SerializeJSONProperty_secret_equiv.
Qed.

(** What is logged for an accepted configuration. *)
Lemma ingestConfig_logged config v :
  ingest config = inl v ->
  (ingestConfig' config).1
  = match stringify (stringify_depth v) config_replacer v with
    | Some (JSON.Gives (Some json)) => [("Parsed config: %s", [JString json])]
    | Some (JSON.Gives None) => [("Parsed config: %s", [JUndefined])]
    | _ => []
    end.
Proof.
  intros Hi. unfold ingestConfig. rewrite Hi.
  destruct (stringify _ _ v) as [[m|[json|]]|]; simpl; try done;
    by destruct (logger_info _ _).
Qed.

(** C10: for a configuration that ingestion accepts, the argument of
    the entry logged at boot is the JSON text of the validated
    configuration in which every value under a key [store] or [secret],
    at any depth, is replaced by the literal [NOT PARSED] (and nothing
    else is changed). So the logged string does not depend on those
    values: two validated configurations that differ only under those
    keys are logged as the same string, and so are two accepted
    configurations that differ only under those keys whenever ingestion
    keeps such a difference under those keys. *)
Theorem ingestConfig_log_withholds_secrets c1 v1 :
  ingest c1 = inl v1 ->
  (ingestConfig' c1).1
  = match stringify (stringify_depth v1) no_replacer (redact v1) with
    | Some (JSON.Gives (Some json)) => [("Parsed config: %s", [JString json])]
    | Some (JSON.Gives None) => [("Parsed config: %s", [JUndefined])]
    | _ => []
    end
  /\ (forall fuel,
        (stringify_depth v1 <= fuel)%nat ->
        stringify fuel no_replacer (redact v1)
        = stringify (stringify_depth v1) no_replacer (redact v1))
  /\ withheld_everywhere (redact v1) = true
  /\ secret_equiv v1 (redact v1)
  /\ (forall k, is_secret_key k = true <-> k = "store" \/ k = "secret")
  /\ (forall props,
        v1 = JObject props ->
        (exists json, (ingestConfig' c1).1 = [("Parsed config: %s", [JString json])])
        \/ (exists message,
              stringify (stringify_depth v1) no_replacer (redact v1)
              = Some (JSON.Throws message)
              /\ (ingestConfig' c1).1 = []))
  /\ (forall c2 v2,
        ingest c2 = inl v2 ->
        secret_equiv v1 v2 ->
        (ingestConfig' c2).1 = (ingestConfig' c1).1)
  /\ ((forall c c' v v',
         secret_equiv c c' -> ingest c = inl v -> ingest c' = inl v' ->
         secret_equiv v v') ->
      forall c2 v2,
        secret_equiv c1 c2 ->
        ingest c2 = inl v2 ->
        (ingestConfig' c2).1 = (ingestConfig' c1).1).
Proof.
  intros H1.
  assert (Hlog : forall c v v',
            ingest c = inl v -> ingest c1 = inl v' -> secret_equiv v' v ->
            (ingestConfig' c).1 = (ingestConfig' c1).1).
  { intros c v v' Hc Hc1 Hv.
    rewrite (ingestConfig_logged _ _ Hc), (ingestConfig_logged _ _ Hc1).
    by rewrite (stringify_config_secret_equiv _ _ Hv). }
  split; [|split; [|split; [|split; [|split; [|split; [|split]]]]]].
  - rewrite (ingestConfig_logged _ _ H1). by rewrite stringify_config_redact.
  - intros fuel Hf. rewrite <- !stringify_config_redact.
    by apply stringify_config_fuel.
  - apply redact_withheld.
  - apply redact_secret_equiv.
  - apply is_secret_key_spec.
  - intros props ->. rewrite (ingestConfig_logged _ _ H1).
    rewrite <- stringify_config_redact.
    destruct (stringify_config_defined (JObject props)) as [[m|r] Hr].
    + right. exists m. by rewrite Hr.
    + left. rewrite Hr.
      destruct (serialize_object_text Number_toString _ config_replacer ""
                  props r eq_refl Hr) as [json ->].
      by eexists.
  - intros c2 v2 H2 Hv. by apply (Hlog c2 v2 v1).
  - intros Hingest c2 v2 Hc H2.
    apply (Hlog c2 v2 v1); [done..|]. by apply (Hingest c1 c2).
Qed.

End IngestConfig.

Lemma example_config_secret_equiv store1 secret1 store2 secret2 :
  secret_equiv (example_config store1 secret1) (example_config store2 secret2).
Proof.
  unfold example_config. apply secret_equiv_object.
  constructor; [same_entry|].
  constructor.
  { split; [reflexivity|]. right. apply secret_equiv_object.
    constructor; [same_entry|].
    constructor; [secret_entry|].
    constructor; [same_entry|].
    constructor; [secret_entry|].
    constructor; [same_entry|]. constructor. }
  constructor; [same_entry|].
  constructor; [same_entry|]. constructor.
Qed.

Lemma ingestConfig_log_withholds_secrets_witness :
  (ingestConfig JSON.decimal quiet_logger accept_objects
     (example_config (JObject [("client", JString "redis")]) (JString "hunter2"))).1
  = [("Parsed config: %s",
      [JString
         ((String.concat (String JSON.dquote "")
                  ["{"; "mountUrl"; ":"; "/"; ","; "sessions"; ":{";
                   "secure"; ":false,"; "store"; ":"; "[NOT PARSED]"; ",";
                   "name"; ":"; "casa-session"; ","; "secret"; ":";
                   "[NOT PARSED]"; ","; "ttl"; ":3600},"; "i18n"; ":{";
                   "locales"; ":["; "en"; ","; "cy"; "]}}"]))])]
  /\ (ingestConfig JSON.decimal quiet_logger accept_objects
        (example_config (JFunction "MemoryStore") (JBigInt 7))).1
     = (ingestConfig JSON.decimal quiet_logger accept_objects
          (example_config (JObject [("client", JString "redis")])
             (JString "hunter2"))).1.
Proof.
  destruct (ingestConfig_log_withholds_secrets JSON.decimal quiet_logger
              accept_objects
              (example_config (JObject [("client", JString "redis")])
                 (JString "hunter2"))
              _ eq_refl) as (H1 & _ & _ & _ & _ & _ & H6 & _).
  split.
  - rewrite H1. reflexivity.
  - apply (H6 (example_config (JFunction "MemoryStore") (JBigInt 7)) _ eq_refl).
    apply example_config_secret_equiv.
Defined.

(** * Further properties of the code *)

(** ** [replace(/\/+/g, '/')] *)

Lemma replace_slash_runs_app b s t :
  replace_slash_runs b (s +:+ t)
  = replace_slash_runs b s +:+ replace_slash_runs (last_is_slash b s) t.
Proof.
  revert b. induction s as [|c s IH]; intros b; simpl; [done|].
  destruct (Char.is_slash c); [destruct b|]; simpl; by rewrite IH.
Qed.

Lemma replace_slash_runs_twice b1 b2 s :
  replace_slash_runs b1 (replace_slash_runs b2 s)
  = replace_slash_runs (b1 || b2) s.
Proof.
  revert b1 b2. induction s as [|c s IH]; intros b1 b2; simpl; [done|].
  destruct (Char.is_slash c) eqn:Hc.
  - destruct b2.
    + rewrite IH. by rewrite orb_true_r.
    + simpl. rewrite orb_false_r. destruct b1; by rewrite IH.
  - simpl. rewrite Hc. by rewrite IH.
Qed.

Lemma last_is_slash_replace b s :
  last_is_slash b (replace_slash_runs b s) = last_is_slash b s.
Proof.
  revert b. induction s as [|c s IH]; intros b; simpl; [done|].
  destruct (Char.is_slash c) eqn:Hc.
  - destruct b; simpl; [apply IH|]. apply (IH true).
  - simpl. rewrite Hc. apply (IH false).
Qed.

Lemma replace_slash_runs_no_slash b s :
  has_no_slash s = true -> replace_slash_runs b s = s.
Proof.
  unfold has_no_slash. revert b.
  induction s as [|c s IH]; intros b; simpl; [done|].
  intros [Hc Hs]%andb_true_iff. apply negb_true_iff in Hc.
  by rewrite Hc, IH.
Qed.

Lemma replace_slash_runs_length b s :
  (String.length (replace_slash_runs b s) <= String.length s)%nat.
Proof.
  revert b. induction s as [|c s IH]; intros b; simpl; [lia|].
  destruct (Char.is_slash c); [destruct b|]; simpl.
  - specialize (IH true). lia.
  - specialize (IH true). lia.
  - specialize (IH false). lia.
Qed.

Lemma string_length_app s t :
  String.length (s +:+ t) = (String.length s + String.length t)%nat.
Proof. induction s as [|c s IH]; simpl; [done|]. by rewrite IH. Qed.

Lemma string_app_assoc (s t u : string) : (s +:+ t) +:+ u = s +:+ (t +:+ u).
Proof.
  induction s as [|c s IH]; [reflexivity|].
  change (String c ((s +:+ t) +:+ u) = String c (s +:+ (t +:+ u))).
  by f_equal.
Qed.

Lemma last_is_slash_app b s t :
  last_is_slash b (s +:+ t) = last_is_slash (last_is_slash b s) t.
Proof. revert b. induction s as [|c s IH]; intros b; simpl; [done|]. apply IH. Qed.

(** X1: the replace leaves a string as it is exactly when the string has
    no two adjacent slashes. *)
Theorem collapse_slashes_fixed_iff s :
  collapse_slashes s = s <-> no_slash_run s = true.
Proof.
  split.
  - intros <-. apply replace_slash_runs_no_run.
  - intros Hs. by apply replace_slash_runs_fixed.
Qed.

(** X2: collapsing a concatenation is the same as collapsing the
    concatenation of the collapsed parts: slashes that meet at the seam
    are merged as well. *)
Theorem collapse_slashes_app a b :
  collapse_slashes (a +:+ b)
  = collapse_slashes (collapse_slashes a +:+ collapse_slashes b).
Proof.
  unfold collapse_slashes.
  rewrite !replace_slash_runs_app, !replace_slash_runs_twice.
  rewrite last_is_slash_replace. simpl. by rewrite orb_false_r.
Qed.

(** X3: the replace never lengthens a string, and a string it does not
    shorten is left as it is. *)
Theorem collapse_slashes_length s :
  (String.length (collapse_slashes s) <= String.length s)%nat
  /\ (String.length (collapse_slashes s) = String.length s <->
      collapse_slashes s = s).
Proof.
  split; [apply replace_slash_runs_length|].
  split; [|by intros ->].
  unfold collapse_slashes. generalize false.
  induction s as [|c s IH]; intros b; simpl; [done|].
  destruct (Char.is_slash c) eqn:Hc.
  - destruct b; simpl.
    + pose proof (replace_slash_runs_length true s). lia.
    + intros Hl. rewrite (is_slash_true _ Hc). f_equal. apply IH. lia.
  - simpl. intros Hl. f_equal. apply IH. lia.
Qed.

(** ** The redirect of the skip middleware *)

Lemma waypoint_class_no_slash c :
  Char.in_waypoint_class (Char.to_lower c) = true ->
  negb (Char.is_slash c) = true.
Proof. destruct c as [[] [] [] [] [] [] [] []]; vm_compute; congruence. Qed.

Lemma skipto_pattern_no_slash s :
  skipto_pattern s = true -> has_no_slash s = true.
Proof.
  unfold skipto_pattern, match_waypoint_re, has_no_slash.
  intros [_ Hc]%andb_true_iff. revert Hc.
  apply string_forallb_impl, waypoint_class_no_slash.
Qed.

Lemma has_no_slash_last s :
  has_no_slash s = true -> last_is_slash false s = false.
Proof.
  unfold has_no_slash. intros Hs.
  assert (H : forall b, b = false -> last_is_slash b s = false);
    [|by apply H].
  induction s as [|c s IH]; intros b Hb; simpl in *; [done|].
  apply andb_true_iff in Hs as [Hc Hs]. apply negb_true_iff in Hc.
  by apply IH.
Qed.

Lemma last_is_slash_snoc b s : last_is_slash b (s +:+ "/") = true.
Proof. by rewrite last_is_slash_app. Qed.

(** X4: for a [skipto] that passes the validation, the redirect path is
    a prefix that ends with a slash, built from the mount URL and the
    origin id only, followed by [skipto] as it was given: [skipto] is the
    last path segment and adds no segment of its own. *)
Theorem redirect_target_ends_with_skipto mountUrl journeyOrigin s :
  skipto_pattern s = true ->
  let prefix :=
    collapse_slashes
      (mountUrl +:+ "/" +:+ origin_segment journeyOrigin +:+ "/") in
  redirect_target mountUrl journeyOrigin s = prefix +:+ s
  /\ last_is_slash false prefix = true
  /\ has_no_slash s = true.
Proof.
  intros Hs prefix. pose proof (skipto_pattern_no_slash _ Hs) as Hn.
  split; [|split; [|exact Hn]].
  - unfold redirect_target, prefix, collapse_slashes.
    replace (mountUrl +:+ "/" +:+ origin_segment journeyOrigin +:+ "/" +:+ s)
      with ((mountUrl +:+ "/" +:+ origin_segment journeyOrigin +:+ "/") +:+ s)
      by (by rewrite !string_app_assoc).
    rewrite replace_slash_runs_app. f_equal.
    by apply replace_slash_runs_no_slash.
  - unfold prefix, collapse_slashes. rewrite last_is_slash_replace.
    replace (mountUrl +:+ "/" +:+ origin_segment journeyOrigin +:+ "/")
      with ((mountUrl +:+ "/" +:+ origin_segment journeyOrigin) +:+ "/")
      by (by rewrite !string_app_assoc).
    apply last_is_slash_snoc.
Qed.

Lemma redirect_target_ends_with_skipto_witness :
  redirect_target "//app//" {| originId := Some "main" |} "Step-4"
  = collapse_slashes ("//app//" +:+ "/" +:+ "main" +:+ "/") +:+ "Step-4".
Proof.
  apply (redirect_target_ends_with_skipto "//app//"
           {| originId := Some "main" |} "Step-4").
  reflexivity.
Defined.

(** X5: when the origin id has no slash and [skipto] passes the
    validation, the redirect path is the mount URL with one slash after
    it (runs of slashes collapsed), then the origin id and a slash when
    the origin id is not empty, then [skipto]: an empty origin leaves no
    empty path segment behind. *)
Theorem redirect_target_segments mountUrl journeyOrigin s :
  has_no_slash (origin_segment journeyOrigin) = true ->
  skipto_pattern s = true ->
  redirect_target mountUrl journeyOrigin s
  = collapse_slashes (mountUrl +:+ "/")
    +:+ (if String.eqb (origin_segment journeyOrigin) ""
         then ""
         else origin_segment journeyOrigin +:+ "/")
    +:+ s.
Proof.
  intros Ho Hs. pose proof (skipto_pattern_no_slash _ Hs) as Hn.
  unfold redirect_target, collapse_slashes.
  replace (mountUrl +:+ "/" +:+ origin_segment journeyOrigin +:+ "/" +:+ s)
    with ((mountUrl +:+ "/") +:+ origin_segment journeyOrigin +:+ "/" +:+ s)
    by (by rewrite !string_app_assoc).
  rewrite replace_slash_runs_app, last_is_slash_snoc. f_equal.
  destruct (origin_segment journeyOrigin) as [|c o] eqn:Eo.
  - change (replace_slash_runs true (String "/" s) = s). simpl.
    by apply replace_slash_runs_no_slash.
  - change (String c o =? "")%string with false. cbv iota.
    rewrite string_app_assoc.
    rewrite replace_slash_runs_app.
    rewrite (replace_slash_runs_no_slash _ _ Ho). f_equal.
    assert (Hl : last_is_slash true (String c o) = false).
    { unfold has_no_slash in Ho. simpl in Ho.
      apply andb_true_iff in Ho as [Hc Ho]. apply negb_true_iff in Hc.
      simpl. rewrite Hc. by apply has_no_slash_last. }
    rewrite Hl. change (replace_slash_runs false (String "/" s) = String "/" s).
    simpl. f_equal. by apply replace_slash_runs_no_slash.
Qed.

Lemma redirect_target_segments_witness :
  redirect_target "/app/" {| originId := None |} "step-four" = "/app/step-four"
  /\ redirect_target "/app" {| originId := Some "main" |} "step-four"
     = "/app/main/step-four".
Proof.
  split.
  - apply (redirect_target_segments "/app/" {| originId := None |} "step-four");
      reflexivity.
  - apply (redirect_target_segments "/app" {| originId := Some "main" |}
             "step-four"); reflexivity.
Defined.

(** X6: when the mount URL starts with a slash, the redirect path starts
    with exactly one slash, whatever the mount URL, the origin id and
    [skipto] are: the redirect cannot leave the site through a path that
    starts with two slashes. *)
Theorem redirect_target_single_leading_slash mountUrl journeyOrigin s :
  head_is_slash mountUrl = true ->
  exists rest,
    redirect_target mountUrl journeyOrigin s = String "/" rest
    /\ head_is_slash rest = false.
Proof.
  intros Hm. destruct mountUrl as [|c m]; [done|]. simpl in Hm.
  unfold redirect_target, collapse_slashes.
  change (String c m +:+ "/" +:+ origin_segment journeyOrigin +:+ "/" +:+ s)
    with (String c (m +:+ "/" +:+ origin_segment journeyOrigin +:+ "/" +:+ s)).
  simpl. rewrite Hm. eexists. split; [reflexivity|].
  apply replace_slash_runs_head.
Qed.

Lemma redirect_target_single_leading_slash_witness :
  exists rest,
    redirect_target "//evil.example" {| originId := Some "/" |} "x"
    = String "/" rest
    /\ head_is_slash rest = false.
Proof.
  apply (redirect_target_single_leading_slash "//evil.example"
           {| originId := Some "/" |} "x").
  reflexivity.
Defined.

(** ** Every run of the skip middleware *)

Section SkipFurther.

Context {JC D E : Type} `{!JourneyContextOps JC D E}.

Implicit Types (w : World JC D E).

Lemma new_events_extended w r evs sr :
  new_events w {| req := r; trace := trace w ++ evs; saveResult := sr |} = evs.
Proof. unfold new_events; simpl. by rewrite drop_app_length. Qed.

Lemma valid_skipto_false w :
  valid_skipto (req w) = false ->
  is_undefined (skipto_of (req w)) = false ->
  invalid_skipto (skipto_of (req w)) = true.
Proof.
  unfold valid_skipto. intros Hv _. by rewrite invalid_skipto_matching, Hv.
Qed.

Lemma undefined_not_valid w :
  is_undefined (skipto_of (req w)) = true -> valid_skipto (req w) = false.
Proof. unfold valid_skipto. by destruct (skipto_of (req w)). Qed.


(** X9: whatever the request, the middleware only adds to the record of
    calls, and leaves the query, the journey origin, the current
    waypoint id and every other property of the session as they were. *)
Theorem skip_frame mountUrl w :
  let w' := exec (skip mountUrl) w in
  trace w' = trace w ++ new_events w w'
  /\ query (req w') = query (req w)
  /\ journeyOrigin (req w') = journeyOrigin (req w)
  /\ journeyWaypointId (req w') = journeyWaypointId (req w)
  /\ sess_rest (session (req w')) = sess_rest (session (req w))
  /\ saveResult w' = saveResult w.
Proof.
  intros w'. unfold w'. rewrite skip_exec.
  destruct (is_undefined (skipto_of (req w)));
    [by rewrite new_events_recording|].
  destruct (invalid_skipto (skipto_of (req w)));
    [by rewrite new_events_recording|].
  by rewrite new_events_extended.
Qed.

(** X10: [session.save] is called exactly when [skipto] passes the
    validation, and so is the log written. The request the middleware
    leaves is then the one with the waypoint cleared and marked and the
    two session properties assigned; for a missing or rejected [skipto]
    it is the request as it was. *)
Theorem skip_acts_iff_valid mountUrl w :
  let w' := exec (skip mountUrl) w in
  req w' = (if valid_skipto (req w) then skipped_request (req w) else req w)
  /\ existsb is_save_event (new_events w w') = valid_skipto (req w)
  /\ existsb is_log_event (new_events w w') = valid_skipto (req w).
Proof.
  intros w'. unfold w'. rewrite skip_exec.
  destruct (is_undefined (skipto_of (req w))) eqn:Hu.
  { rewrite (undefined_not_valid _ Hu), new_events_recording. done. }
  destruct (valid_skipto (req w)) eqn:Hv.
  - unfold valid_skipto in Hv. rewrite invalid_skipto_matching, Hv. simpl.
    rewrite new_events_extended. done.
  - rewrite (valid_skipto_false _ Hv Hu), new_events_recording. done.
Qed.

End SkipFurther.

(** ** [ingestConfig], further *)

Lemma existsb_false_Forall {A} (p : A -> bool) l :
  existsb p l = false -> Forall (fun x => p x = false) l.
Proof.
  induction l as [|x l IH]; simpl; [constructor|].
  intros [Hx Hl]%orb_false_iff. constructor; auto.
Qed.

Lemma SerializeJSONProperty_transparent Number_toString fuel :
  forall k v,
    is_secret_key k = false ->
    mentions_withheld_key v = false ->
    JSON.SerializeJSONProperty Number_toString fuel config_replacer k v
    = JSON.SerializeJSONProperty Number_toString fuel no_replacer k v.
Proof.
  induction fuel as [|fuel IH]; intros k v Hk Hv; [done|].
  cbn [JSON.SerializeJSONProperty]. unfold JSON.serialize_property.
  rewrite (config_replacer_other _ _ Hk).
  change (no_replacer k v) with v.
  destruct v as [| |b|n|s|elems|props|f|n|]; try done.
  - f_equal.
    apply (mapM_indexed_Forall (fun e => mentions_withheld_key e = false)).
    + apply existsb_false_Forall. exact Hv.
    + intros i e He. by rewrite (IH _ _ (index_key_not_secret i) He).
  - f_equal.
    apply (mapM_indexed_Forall
             (fun kv : string * JSValue =>
                is_secret_key kv.1 || mentions_withheld_key kv.2 = false)).
    + apply existsb_false_Forall. exact Hv.
    + intros i [k' e] [Hk' He]%orb_false_iff. cbn [fst snd] in *.
      by rewrite (IH _ _ Hk' He).
Qed.



(** X12: for a value in which no object, at any depth, has a property
    named [store] or [secret], the replacer of [ingestConfig] changes
    nothing: the string is the one [JSON.stringify] gives without a
    replacer. In particular no element of an array is ever withheld,
    since array indices are never one of the two keys. *)
Theorem config_replacer_transparent (Number_toString : Z -> string) fuel v :
  mentions_withheld_key v = false ->
  JSON.stringify Number_toString fuel config_replacer v
  = JSON.stringify Number_toString fuel no_replacer v.
Proof.
  intros Hv. by apply SerializeJSONProperty_transparent.
Qed.

Lemma config_replacer_transparent_witness :
  JSON.stringify JSON.decimal 4 config_replacer
    (JObject [("mountUrl", JString "/");
              ("stores", JArray [JString "store"; JString "secret"])])
  = JSON.stringify JSON.decimal 4 no_replacer
      (JObject [("mountUrl", JString "/");
                ("stores", JArray [JString "store"; JString "secret"])]).
Proof.
  apply (config_replacer_transparent JSON.decimal 4
           (JObject [("mountUrl", JString "/");
                     ("stores", JArray [JString "store"; JString "secret"])])).
  reflexivity.
Defined.

(** ** The size of the redirect *)

Lemma skipto_pattern_length s :
  skipto_pattern s = true ->
  (1 <= String.length s <= 200)%nat.
Proof.
  unfold skipto_pattern, match_waypoint_re.
  intros [[H1 H2]%andb_true_iff _]%andb_true_iff.
  apply Nat.leb_le in H1, H2. lia.
Qed.

(** X13: a [skipto] that passes the validation has between 1 and 200
    characters, and the redirect path is then at most 202 characters
    longer than the mount URL and the origin id together. *)
Theorem redirect_target_length mountUrl journeyOrigin s :
  skipto_pattern s = true ->
  (1 <= String.length s <= 200)%nat
  /\ (String.length (redirect_target mountUrl journeyOrigin s)
      <= String.length mountUrl
         + String.length (origin_segment journeyOrigin) + 202)%nat.
Proof.
  intros Hs. pose proof (skipto_pattern_length _ Hs) as Hl.
  split; [exact Hl|]. unfold redirect_target, collapse_slashes.
  etransitivity; [apply replace_slash_runs_length|].
  rewrite !string_length_app. simpl. lia.
Qed.

Lemma redirect_target_length_witness :
  (String.length
     (redirect_target "/app" {| originId := Some "main" |}
        (string_repeat "a" 200))
   <= 4 + 4 + 202)%nat.
Proof.
  apply (redirect_target_length "/app" {| originId := Some "main" |}
           (string_repeat "a" 200)).
  reflexivity.
Defined.
